(** * HEST table generation: the ArmPlatformPkg drivers

    A shallow embedding of

    - [ArmPlatformPkg/Drivers/Apei/HestDxe/HestDxe.c]: the driver that grows
      the HEST table and installs it,
    - [ArmPlatformPkg/Drivers/HestMmErrorSources/HestErrorSourceStandaloneMm.c]:
      the MM gateway that collects the descriptors of the MM drivers,
    - [ArmPlatformPkg/Drivers/HestMmErrorSources/HestErrorSourceDxe.c]: the DXE
      driver that fetches them with two MM Communicate calls,

    followed by the properties of these drivers.

    Machine integers are [N] with the wrap-around written out, buffers are
    lists of bytes, C pointers are either an option (absent / the object
    pointed to) or, where the source compares an address, the address
    itself.  A computation is an [option]: [None] stands for an access
    outside an allocation, where C leaves the behaviour undefined. *)

From Stdlib Require Import Arith NArith List Lia Bool.
From Stdlib.Strings Require Import Byte.
Import ListNotations.
Local Open Scope N_scope.

(** ** Base types and status codes *)

Module Base.

(** [UINTN] is 64 bits wide (AArch64, the architecture Standalone MM runs
    on); [UINT32] and [UINT8] are what their names say. *)
Definition UINTN (n : N) : N := n mod 2 ^ 64.
Definition UINT32 (n : N) : N := n mod 2 ^ 32.
Definition UINT8 (n : N) : N := n mod 2 ^ 8.

Definition EFI_STATUS := N.

(** The status codes of MdePkg's [Base.h], which is not one of the files
    embedded here; the values are the ones the UEFI specification fixes
    (Appendix D) for a 64-bit [UINTN]. *)
Definition MAX_BIT : N := 2 ^ 63.
Definition ENCODE_ERROR (code : N) : EFI_STATUS := N.lor MAX_BIT code.

Definition EFI_SUCCESS : EFI_STATUS := 0.
Definition EFI_INVALID_PARAMETER : EFI_STATUS := ENCODE_ERROR 2.
Definition EFI_UNSUPPORTED : EFI_STATUS := ENCODE_ERROR 3.
Definition EFI_BAD_BUFFER_SIZE : EFI_STATUS := ENCODE_ERROR 4.
Definition EFI_BUFFER_TOO_SMALL : EFI_STATUS := ENCODE_ERROR 5.
Definition EFI_DEVICE_ERROR : EFI_STATUS := ENCODE_ERROR 7.
Definition EFI_OUT_OF_RESOURCES : EFI_STATUS := ENCODE_ERROR 9.
Definition EFI_NOT_FOUND : EFI_STATUS := ENCODE_ERROR 14.

(** [EFI_ERROR (A)] is [((INTN)(RETURN_STATUS)(A)) < 0]: the top bit. *)
Definition EFI_ERROR (s : EFI_STATUS) : bool := MAX_BIT <=? UINTN s.

Definition sizeof_EFI_HANDLE : N := 8.

End Base.

(** ** Memory: bytes, bounded copies and little-endian fields *)

Module Mem.

Definition bind {A B : Type} (m : option A) (k : A -> option B) : option B :=
  match m with
  | Some a => k a
  | None => None
  end.

Definition byte_of_N (n : N) : byte :=
  match Byte.of_N (n mod 256) with
  | Some b => b
  | None => x00
  end.

Definition ZeroMem (n : N) : list byte := repeat x00 (N.to_nat n).

Definition len (buf : list byte) : N := N.of_nat (length buf).

(** The [n] bytes of [buf] from offset [off] on; an access past the end of
    the object is outside the model, an access to no bytes is none. *)
Definition ReadMem (buf : list byte) (off n : N) : option (list byte) :=
  if n =? 0 then Some []
  else if off + n <=? len buf
  then Some (firstn (N.to_nat n) (skipn (N.to_nat off) buf))
  else None.

(** [CopyMem (buf + off, src, length src)]; a copy of no bytes touches
    nothing, wherever it points. *)
Definition CopyMem (buf : list byte) (off : N) (src : list byte)
  : option (list byte) :=
  if len src =? 0 then Some buf
  else if off + len src <=? len buf
  then Some (firstn (N.to_nat off) buf ++ src
             ++ skipn (N.to_nat (off + len src)) buf)
  else None.

(** Little-endian scalars, as AArch64 stores them. *)
Fixpoint le_bytes (width : nat) (v : N) : list byte :=
  match width with
  | O => []
  | S w => byte_of_N v :: le_bytes w (v / 256)
  end.

Fixpoint le_value (bs : list byte) : N :=
  match bs with
  | [] => 0
  | b :: t => Byte.to_N b + 256 * le_value t
  end.

Definition Read32 (buf : list byte) (off : N) : option N :=
  option_map le_value (ReadMem buf off 4).

Definition Write32 (buf : list byte) (off v : N) : option (list byte) :=
  CopyMem buf off (le_bytes 4 v).

Definition Read8 (buf : list byte) (off : N) : option N :=
  option_map le_value (ReadMem buf off 1).

Definition Write8 (buf : list byte) (off v : N) : option (list byte) :=
  CopyMem buf off (le_bytes 1 v).

(** Modelled from the spec: [CalculateSum8] and [CalculateCheckSum8] of
    MdePkg's BaseLib are not among the files embedded here.  The sum is the
    8-bit sum of the bytes; the checksum is its two's complement, the
    value that brings the sum of a buffer to zero when it is stored in a
    byte that was zero while the sum was taken. *)
Definition CalculateSum8 (bs : list byte) : N :=
  fold_left (fun acc b => Base.UINT8 (acc + Byte.to_N b)) bs 0.

Definition CalculateCheckSum8 (bs : list byte) : N :=
  Base.UINT8 (0x100 - CalculateSum8 bs).

(** The plain sum of the bytes, with no wrap-around. *)
Definition byte_sum (bs : list byte) : N :=
  fold_right (fun b acc => Byte.to_N b + acc) 0 bs.

(** A pool pointer: [NULL], a live allocation with its contents, or a
    pointer whose allocation went back to the pool. *)
Inductive pointer : Type :=
| NULL
| Live (buf : list byte)
| Freed.

(** Modelled from the spec: [ReallocateReservedPool] of MdePkg's
    MemoryAllocationLib is not among the files embedded here.  It
    allocates [NewSize] zeroed bytes; when that fails it returns [NULL] and
    leaves the old buffer alone; otherwise it copies the first
    [MIN (OldSize, NewSize)] bytes of the old buffer, frees it, and returns
    the new one.  [granted] says whether the pool serves the request. *)
Definition ReallocateReservedPool (granted : bool) (OldSize NewSize : N)
    (OldBuffer : pointer) : option pointer :=
  if negb granted then Some NULL
  else
    match OldBuffer with
    | NULL => Some (Live (ZeroMem NewSize))
    | Live old =>
        bind (ReadMem old 0 (N.min OldSize NewSize)) (fun kept =>
        Some (Live (kept ++ ZeroMem (NewSize - N.min OldSize NewSize))))
    | Freed => None
    end.

End Mem.

Declare Scope mem_scope.
Notation "x <- m ;; k" := (Mem.bind m (fun x => k))
  (at level 100, m at next level, right associativity) : mem_scope.
Local Open Scope mem_scope.

(** ** HestDxe.c: the table aggregator *)

Module HestDxe.
Import Base Mem.

(** The table header of ACPI 6.3, Table 18-382, as MdePkg's [Acpi63.h]
    declares it (packed): the ACPI description header, then the error
    source count. *)
Record EFI_ACPI_DESCRIPTION_HEADER : Type := {
  Signature : N;        (* UINT32, offset 0 *)
  Length : N;           (* UINT32, offset 4 *)
  Revision : N;         (* UINT8, offset 8 *)
  Checksum : N;         (* UINT8, offset 9 *)
  OemId : list byte;    (* UINT8[6], offset 10 *)
  OemTableId : N;       (* UINT64, offset 16 *)
  OemRevision : N;      (* UINT32, offset 24 *)
  CreatorId : N;        (* UINT32, offset 28 *)
  CreatorRevision : N   (* UINT32, offset 32 *)
}.

Record EFI_ACPI_6_3_HARDWARE_ERROR_SOURCE_TABLE_HEADER : Type := {
  Header : EFI_ACPI_DESCRIPTION_HEADER;
  ErrorSourceCount : N  (* UINT32, offset 36 *)
}.

(** [sizeof (EFI_ACPI_6_3_HARDWARE_ERROR_SOURCE_TABLE_HEADER)] and the
    offsets of the fields the driver reaches through a pointer. *)
Definition sizeof_HEST_TABLE_HEADER : N := 40.
Definition offset_Length : N := 4.
Definition offset_Checksum : N := 9.
Definition offset_ErrorSourceCount : N := 36.

(** SIGNATURE_32 ('H', 'E', 'S', 'T') and revision 1. *)
Definition EFI_ACPI_6_3_HARDWARE_ERROR_SOURCE_TABLE_SIGNATURE : N := 0x54534548.
Definition EFI_ACPI_6_3_HARDWARE_ERROR_SOURCE_TABLE_REVISION : N := 1.

(** The object representation of the header, field by field. *)
Definition fit (n : nat) (bs : list byte) : list byte :=
  firstn n (bs ++ repeat x00 n).

Definition header_bytes
    (h : EFI_ACPI_6_3_HARDWARE_ERROR_SOURCE_TABLE_HEADER) : list byte :=
  le_bytes 4 (Signature (Header h))
  ++ le_bytes 4 (Length (Header h))
  ++ le_bytes 1 (Revision (Header h))
  ++ le_bytes 1 (Checksum (Header h))
  ++ fit 6 (OemId (Header h))
  ++ le_bytes 8 (OemTableId (Header h))
  ++ le_bytes 4 (OemRevision (Header h))
  ++ le_bytes 4 (CreatorId (Header h))
  ++ le_bytes 4 (CreatorRevision (Header h))
  ++ le_bytes 4 (ErrorSourceCount h).

(** The platform configuration database entries the header is built from. *)
Record Pcd : Type := {
  PcdAcpiDefaultOemId : list byte;
  PcdAcpiDefaultOemTableId : N;
  PcdAcpiDefaultOemRevision : N;
  PcdAcpiDefaultCreatorId : N;
  PcdAcpiDefaultCreatorRevision : N
}.

(** [HEST_DXE_DRIVER_DATA], the driver's global [mHestDriverData]. *)
Record HEST_DXE_DRIVER_DATA : Type := {
  HestTable : pointer;
  CurrentTableSize : N  (* UINT32 *)
}.

(** A global of static storage starts out zeroed. *)
Definition mHestDriverData_initial : HEST_DXE_DRIVER_DATA :=
  {| HestTable := NULL; CurrentTableSize := 0 |}.

(** What one call of the append service finds around it: whether the pool
    serves the header allocation and the growth, and the contents of the
    stack slot in which [BuildHestHeader] declares its local [HestHeader]
    (the function gives the local no initialiser). *)
Record CallEnv : Type := {
  header_granted : bool;
  growth_granted : bool;
  HestHeader_slot : EFI_ACPI_6_3_HARDWARE_ERROR_SOURCE_TABLE_HEADER
}.

Section Driver.
Variable pcd : Pcd.

Definition ReallocateHestTableMemory (granted : bool)
    (OldTableSize NewTableSize : N) (OldBuffer : pointer)
  : option pointer :=
  ReallocateReservedPool granted OldTableSize NewTableSize OldBuffer.

(** [BuildHestHeader]: every field of the local is assigned but
    [Header.Length] and [Header.Checksum], which keep what the slot
    held; the whole local is then copied into the new buffer. *)
Definition BuildHestHeader (env : CallEnv) (d : HEST_DXE_DRIVER_DATA)
  : option (EFI_STATUS * HEST_DXE_DRIVER_DATA) :=
  p <- ReallocateHestTableMemory (header_granted env) 0
         sizeof_HEST_TABLE_HEADER NULL ;;
  match p with
  | Live buf =>
      let slot := HestHeader_slot env in
      let HestHeader :=
        {| Header :=
             {| Signature := EFI_ACPI_6_3_HARDWARE_ERROR_SOURCE_TABLE_SIGNATURE;
                Length := Length (Header slot);
                Revision := EFI_ACPI_6_3_HARDWARE_ERROR_SOURCE_TABLE_REVISION;
                Checksum := Checksum (Header slot);
                OemId := PcdAcpiDefaultOemId pcd;
                OemTableId := PcdAcpiDefaultOemTableId pcd;
                OemRevision := PcdAcpiDefaultOemRevision pcd;
                CreatorId := PcdAcpiDefaultCreatorId pcd;
                CreatorRevision := PcdAcpiDefaultCreatorRevision pcd |};
           ErrorSourceCount := 0 |} in
      buf' <- CopyMem buf 0 (header_bytes HestHeader) ;;
      Some (EFI_SUCCESS,
            {| HestTable := Live buf';
               CurrentTableSize := sizeof_HEST_TABLE_HEADER |})
  | _ =>
      Some (EFI_OUT_OF_RESOURCES,
            {| HestTable := p; CurrentTableSize := CurrentTableSize d |})
  end.

(** [AppendErrorSourceDescriptor].  [ErrorSourceDescriptorList] is
    [None] for a null pointer and otherwise the bytes readable at the
    pointer. *)
Definition AppendErrorSourceDescriptor (env : CallEnv)
    (ErrorSourceDescriptorList : option (list byte))
    (ErrorSourceDescriptorListSize ErrorSourceDescriptorCount : N)
    (d : HEST_DXE_DRIVER_DATA)
  : option (EFI_STATUS * HEST_DXE_DRIVER_DATA) :=
  match ErrorSourceDescriptorList with
  | None => Some (EFI_INVALID_PARAMETER, d)
  | Some List =>
    if ErrorSourceDescriptorListSize =? 0
    then Some (EFI_INVALID_PARAMETER, d)
    else
      built <- match HestTable d with
               | NULL => BuildHestHeader env d
               | _ => Some (EFI_SUCCESS, d)
               end ;;
      let '(Status, d) := built in
      if Status =? EFI_OUT_OF_RESOURCES then Some (Status, d)
      else
        let NewTableSize :=
          UINT32 (UINTN (CurrentTableSize d
                         + ErrorSourceDescriptorListSize)) in
        p <- ReallocateHestTableMemory (growth_granted env)
               (CurrentTableSize d) NewTableSize (HestTable d) ;;
        match p with
        | Live buf =>
            src <- ReadMem List 0 ErrorSourceDescriptorListSize ;;
            buf <- CopyMem buf (CurrentTableSize d) src ;;
            buf <- Write32 buf offset_Length NewTableSize ;;
            count <- Read32 buf offset_ErrorSourceCount ;;
            buf <- Write32 buf offset_ErrorSourceCount
                     (UINT32 (UINTN (count
                                     + ErrorSourceDescriptorCount))) ;;
            Some (EFI_SUCCESS,
                  {| HestTable := Live buf;
                     CurrentTableSize := NewTableSize |})
        | _ =>
            Some (EFI_OUT_OF_RESOURCES,
                  {| HestTable := p;
                     CurrentTableSize := CurrentTableSize d |})
        end
  end.

(** What [InstallHestAcpiTable] leaves behind: its status, the driver
    data, and the table and length it handed to [InstallAcpiTable], if
    it called it. *)
Record Installed : Type := {
  install_status : EFI_STATUS;
  install_data : HEST_DXE_DRIVER_DATA;
  install_published : option (list byte * N)
}.

(** [InstallHestAcpiTable]; [InstallAcpiTable] is the service of the
    ACPI table protocol, given the table and its length. *)
Definition InstallHestAcpiTable
    (InstallAcpiTable : list byte -> N -> EFI_STATUS)
    (d : HEST_DXE_DRIVER_DATA) : option Installed :=
  match HestTable d with
  | NULL =>
      Some {| install_status := EFI_SUCCESS; install_data := d;
              install_published := None |}
  | Freed => None
  | Live buf =>
      Length <- Read32 buf offset_Length ;;
      summed <- ReadMem buf 0 Length ;;
      buf <- Write8 buf offset_Checksum (CalculateCheckSum8 summed) ;;
      Length <- Read32 buf offset_Length ;;
      let Status := InstallAcpiTable buf Length in
      if EFI_ERROR Status
      then Some {| install_status := Status;
                   install_data :=
                     {| HestTable := Live buf;
                        CurrentTableSize := CurrentTableSize d |};
                   install_published := Some (buf, Length) |}
      else Some {| install_status := EFI_SUCCESS;
                   install_data :=
                     {| HestTable := Freed;
                        CurrentTableSize := CurrentTableSize d |};
                   install_published := Some (buf, Length) |}
  end.

End Driver.

(** One call of the append service with its arguments. *)
Record AppendCall : Type := {
  call_env : CallEnv;
  call_List : option (list byte);
  call_Size : N;
  call_Count : N
}.

(** A run of calls every one of which returns [EFI_SUCCESS]: the driver
    data after the last one. *)
Fixpoint successful_appends (pcd : Pcd) (calls : list AppendCall)
    (d : HEST_DXE_DRIVER_DATA) : option HEST_DXE_DRIVER_DATA :=
  match calls with
  | [] => Some d
  | c :: rest =>
      r <- AppendErrorSourceDescriptor pcd (call_env c) (call_List c)
             (call_Size c) (call_Count c) d ;;
      if fst r =? EFI_SUCCESS
      then successful_appends pcd rest (snd r)
      else None
  end.

Definition sum_Size (calls : list AppendCall) : N :=
  fold_right (fun c acc => call_Size c + acc) 0 calls.

Definition sum_Count (calls : list AppendCall) : N :=
  fold_right (fun c acc => call_Count c + acc) 0 calls.

(** The header fields of the table the driver data points to. *)
Definition table_ErrorSourceCount (d : HEST_DXE_DRIVER_DATA) : option N :=
  match HestTable d with
  | Live buf => Read32 buf offset_ErrorSourceCount
  | _ => None
  end.

Definition table_Length (d : HEST_DXE_DRIVER_DATA) : option N :=
  match HestTable d with
  | Live buf => Read32 buf offset_Length
  | _ => None
  end.

(** What holds of the driver data between calls once descriptors of
    [sizes] bytes in all, counted as [counts], went in: no table yet and
    nothing appended, or a table whose count field is [counts] as a
    [UINT32], whose length field and size are the header and [sizes]. *)
Definition table_inv (d : HEST_DXE_DRIVER_DATA) (counts sizes : N) : Prop :=
  match HestTable d with
  | NULL => counts = 0 /\ sizes = 0
  | Live buf =>
      Read32 buf offset_ErrorSourceCount = Some (UINT32 counts)
      /\ Read32 buf offset_Length = Some (sizeof_HEST_TABLE_HEADER + sizes)
      /\ CurrentTableSize d = sizeof_HEST_TABLE_HEADER + sizes
      /\ len buf = sizeof_HEST_TABLE_HEADER + sizes
  | Freed => False
  end.

End HestDxe.

(** ** HestErrorSourceStandaloneMm.c: the gateway that collects the
    descriptors inside Standalone MM *)

Module StandaloneMm.
Import Base Mem.

(** [HEST_ERROR_SOURCE_DESC_INFO] of HestMmErrorSourceCommon.h: two
    [UINTN] fields and the descriptor bytes after them.  The list is the
    memory of the buffer behind the two fields, as far as it goes. *)
Record HEST_ERROR_SOURCE_DESC_INFO : Type := {
  ErrSourceDescCount : N;
  ErrSourceDescSize : N;
  ErrSourceDescList : list byte
}.

(** [OFFSET_OF (HEST_ERROR_SOURCE_DESC_INFO, ErrSourceDescList)]. *)
Definition HEST_ERROR_SOURCE_DESC_INFO_SIZE : N := 16.

(** What one call of [GetHestErrorSourceDescriptors] leaves behind: the
    status, the two out-parameters as they stand when it returns, and the
    bytes it stored at [*Buffer] (the cursor itself is moved by the caller
    only). *)
Record Reply : Type := {
  reply_Status : EFI_STATUS;
  reply_SourceLength : N;
  reply_SourceCount : N;
  reply_Written : list byte
}.

(** [MM_HEST_ERROR_SOURCE_DESC_PROTOCOL] of HestErrorSourceInfo.h.  The
    argument is [None] for a null [Buffer] and otherwise the place of the
    cursor in the descriptor list. *)
Record MM_HEST_ERROR_SOURCE_DESC_PROTOCOL : Type := {
  GetHestErrorSourceDescriptors : option N -> Reply
}.

(** A handle of the MM handle database: what [MmHandleProtocol] answers
    for it, status and interface. *)
Record Handle : Type := {
  MmHandleProtocol_Status : EFI_STATUS;
  Interface : MM_HEST_ERROR_SOURCE_DESC_PROTOCOL
}.

(** Modelled from the spec: [MmLocateHandle] (by protocol) of the MM
    system table is not among the files embedded here.  [db] holds the
    handles that carry the protocol, the producers registered at the time
    of the call; the call reports [EFI_NOT_FOUND] when there is none, the
    size it needs with [EFI_BUFFER_TOO_SMALL] when the buffer is smaller
    (a null buffer of size 0 asks for the size), and fills the buffer
    otherwise. *)
Definition MmLocateHandle (db : list Handle) (BufferSize : N)
  : EFI_STATUS * N :=
  match db with
  | [] => (EFI_NOT_FOUND, BufferSize)
  | _ =>
      let needed := N.of_nat (length db) * sizeof_EFI_HANDLE in
      if BufferSize <? needed then (EFI_BUFFER_TOO_SMALL, needed)
      else (EFI_SUCCESS, needed)
  end.

Definition GetHestErrorSourceProtocolHandles (db : list Handle)
    (HandleBufferSize : N) : EFI_STATUS * N :=
  let '(Status, HandleBufferSize) := MmLocateHandle db HandleBufferSize in
  if EFI_ERROR Status && negb (Status =? EFI_BUFFER_TOO_SMALL)
  then (EFI_NOT_FOUND, HandleBufferSize)
  else (Status, HandleBufferSize).

(** The locals the first loop updates. *)
Record ProbeState : Type := {
  probe_Status : EFI_STATUS;
  TotalSourceLength : N;
  TotalSourceCount : N
}.

(** One turn of the first loop ([Buffer] passed as [NULL]). *)
Definition probe_step (s : ProbeState) (h : Handle) : ProbeState :=
  let Status := MmHandleProtocol_Status h in
  if EFI_ERROR Status
  then {| probe_Status := Status;
          TotalSourceLength := TotalSourceLength s;
          TotalSourceCount := TotalSourceCount s |}
  else
    let r := GetHestErrorSourceDescriptors (Interface h) None in
    let Status := reply_Status r in
    if Status =? EFI_INVALID_PARAMETER
    then {| probe_Status := Status;
            TotalSourceLength :=
              UINTN (TotalSourceLength s + reply_SourceLength r);
            TotalSourceCount :=
              UINTN (TotalSourceCount s + reply_SourceCount r) |}
    else {| probe_Status := Status;
            TotalSourceLength := TotalSourceLength s;
            TotalSourceCount := TotalSourceCount s |}.

Definition probe_pass (HandleBuffer : list Handle) (s : ProbeState)
  : ProbeState :=
  fold_left probe_step HandleBuffer s.

(** The locals the second loop updates; [ErrorSourcePtr] is kept as the
    offset of the cursor from [ErrSourceDescList]. *)
Record FillState : Type := {
  fill_Status : EFI_STATUS;
  ErrorSourcePtr : N;
  DescList : list byte
}.

(** One turn of the second loop. *)
Definition fill_step (s : FillState) (h : Handle) : option FillState :=
  let Status := MmHandleProtocol_Status h in
  if EFI_ERROR Status
  then Some {| fill_Status := Status;
               ErrorSourcePtr := ErrorSourcePtr s;
               DescList := DescList s |}
  else
    let r := GetHestErrorSourceDescriptors (Interface h)
               (Some (ErrorSourcePtr s)) in
    list <- CopyMem (DescList s) (ErrorSourcePtr s) (reply_Written r) ;;
    let Status := reply_Status r in
    Some {| fill_Status := Status;
            ErrorSourcePtr :=
              if Status =? EFI_SUCCESS
              then ErrorSourcePtr s + reply_SourceLength r
              else ErrorSourcePtr s;
            DescList := list |}.

Fixpoint fill_pass (HandleBuffer : list Handle) (s : FillState)
  : option FillState :=
  match HandleBuffer with
  | [] => Some s
  | h :: rest => s' <- fill_step s h ;; fill_pass rest s'
  end.

(** [HestErrorSourcesInfoMmiHandler].  [db] is the handle database,
    [granted] whether the pool serves the handle buffer, [CommBuffer] the
    communication buffer on entry. *)
Definition HestErrorSourcesInfoMmiHandler (db : list Handle)
    (granted : bool) (CommBuffer : HEST_ERROR_SOURCE_DESC_INFO)
    (CommBufferSize : N)
  : option (EFI_STATUS * HEST_ERROR_SOURCE_DESC_INFO) :=
  if CommBufferSize <? HEST_ERROR_SOURCE_DESC_INFO_SIZE
  then Some (EFI_INVALID_PARAMETER, CommBuffer)
  else
    let '(Status, HandleBufferSize) :=
      GetHestErrorSourceProtocolHandles db 0 in
    if (Status =? EFI_NOT_FOUND) || (HandleBufferSize =? 0)
    then Some (Status, CommBuffer)
    else if negb granted then Some (EFI_OUT_OF_RESOURCES, CommBuffer)
    else
      let '(Status, HandleBufferSize) :=
        GetHestErrorSourceProtocolHandles db HandleBufferSize in
      if EFI_ERROR Status then Some (Status, CommBuffer)
      else
        let HandleCount := HandleBufferSize / sizeof_EFI_HANDLE in
        let HandleBuffer := firstn (N.to_nat HandleCount) db in
        let probed :=
          probe_pass HandleBuffer
            {| probe_Status := Status;
               TotalSourceLength := 0;
               TotalSourceCount := 0 |} in
        let Total :=
          UINTN (TotalSourceLength probed
                 + HEST_ERROR_SOURCE_DESC_INFO_SIZE) in
        if CommBufferSize <? Total
        then Some (EFI_BUFFER_TOO_SMALL,
                   {| ErrSourceDescCount := TotalSourceCount probed;
                      ErrSourceDescSize := TotalSourceLength probed;
                      ErrSourceDescList := ErrSourceDescList CommBuffer |})
        else
          filled <- fill_pass HandleBuffer
                      {| fill_Status := probe_Status probed;
                         ErrorSourcePtr := 0;
                         DescList := ErrSourceDescList CommBuffer |} ;;
          Some (fill_Status filled,
                {| ErrSourceDescCount := TotalSourceCount probed;
                   ErrSourceDescSize := TotalSourceLength probed;
                   ErrSourceDescList := DescList filled |}).

(** The handles that take part in the totals of the first loop: the
    protocol is there and the query with a null [Buffer] is answered by
    [EFI_INVALID_PARAMETER]. *)
Definition probe_reply (h : Handle) : Reply :=
  GetHestErrorSourceDescriptors (Interface h) None.

Definition answers_probe (h : Handle) : bool :=
  negb (EFI_ERROR (MmHandleProtocol_Status h))
  && (reply_Status (probe_reply h) =? EFI_INVALID_PARAMETER).

Definition declared_Length (hs : list Handle) : N :=
  fold_right (fun h acc => reply_SourceLength (probe_reply h) + acc) 0
    (filter answers_probe hs).

Definition declared_Count (hs : list Handle) : N :=
  fold_right (fun h acc => reply_SourceCount (probe_reply h) + acc) 0
    (filter answers_probe hs).

(** The handles that move the cursor of the second loop: the protocol is
    there and the query with the cursor is answered by [EFI_SUCCESS]. *)
Definition fill_reply (h : Handle) (cursor : N) : Reply :=
  GetHestErrorSourceDescriptors (Interface h) (Some cursor).

Definition answers_fill (h : Handle) (cursor : N) : bool :=
  negb (EFI_ERROR (MmHandleProtocol_Status h))
  && (reply_Status (fill_reply h cursor) =? EFI_SUCCESS).

(** Where the cursor stands after the handles [hs], from [cursor] on. *)
Fixpoint cursor_after (hs : list Handle) (cursor : N) : N :=
  match hs with
  | [] => cursor
  | h :: rest =>
      cursor_after rest
        (if answers_fill h cursor
         then cursor + reply_SourceLength (fill_reply h cursor)
         else cursor)
  end.

(** A handle none of whose answers in the second loop is
    [EFI_BUFFER_TOO_SMALL]. *)
Definition never_too_small (h : Handle) : Prop :=
  MmHandleProtocol_Status h <> EFI_BUFFER_TOO_SMALL
  /\ forall cursor,
       reply_Status (fill_reply h cursor) <> EFI_BUFFER_TOO_SMALL.

End StandaloneMm.

(** ** HestErrorSourceDxe.c: the client of the gateway *)

Module ErrorSourceDxe.
Import Base Mem StandaloneMm.

(** [OFFSET_OF (EFI_MM_COMMUNICATE_HEADER, Data)]: the GUID and the
    message length. *)
Definition MM_COMMUNICATE_HEADER_SIZE : N := 24.
Definition sizeof_HeaderGuid : N := 16.
Definition sizeof_MessageLength : N := 8.

(** The services around one run of [AppendMmErrorSources]: the address
    each [AllocatePool] returns for a size (0 is [NULL]), and for each MM
    Communicate call, given the message length, its status and the
    [Data] of the buffer once it returns. *)
Record Services : Type := {
  AllocatePool_first : N -> N;
  Communicate_first : N -> option (EFI_STATUS * HEST_ERROR_SOURCE_DESC_INFO);
  AllocatePool_second : N -> N;
  Communicate_second : N -> option (EFI_STATUS * HEST_ERROR_SOURCE_DESC_INFO)
}.

(** [GetErrorSourceDescriptors]: sets the message length and calls into
    Standalone MM. *)
Definition GetErrorSourceDescriptors
    (Communicate : N -> option (EFI_STATUS * HEST_ERROR_SOURCE_DESC_INFO))
    (CommBuffSize : N)
  : option (EFI_STATUS * HEST_ERROR_SOURCE_DESC_INFO) :=
  let MessageLength :=
    UINTN (CommBuffSize + 2 ^ 64
           - sizeof_HeaderGuid - sizeof_MessageLength) in
  Communicate MessageLength.

(** The address of [ErrSourceDescList] in the buffer at
    [CommunicationHeader]: the member sits behind the communicate header
    and the two [UINTN] fields. *)
Definition ErrSourceDescList_address (CommunicationHeader : N) : N :=
  UINTN (CommunicationHeader + MM_COMMUNICATE_HEADER_SIZE
         + HEST_ERROR_SOURCE_DESC_INFO_SIZE).

(** How [AppendMmErrorSources] ends: it returns a status of its own, or
    it returns what [mHestProtocol->AppendErrorSourceDescriptors] gives
    for these arguments. *)
Inductive Ending : Type :=
| Return (Status : EFI_STATUS)
| ReturnAppend (List : option (list byte)) (Size Count : N).

(** [AppendMmErrorSources], up to the call of the HEST table protocol. *)
Definition AppendMmErrorSources_steps (svc : Services) : option Ending :=
  let CommBufferSize :=
    UINTN (MM_COMMUNICATE_HEADER_SIZE + HEST_ERROR_SOURCE_DESC_INFO_SIZE) in
  let CommunicationHeader := AllocatePool_first svc CommBufferSize in
  if CommunicationHeader =? 0 then Some (Return EFI_OUT_OF_RESOURCES)
  else
    r <- GetErrorSourceDescriptors (Communicate_first svc) CommBufferSize ;;
    let '(Status, ErrorSourceDescInfo) := r in
    if EFI_ERROR Status && negb (Status =? EFI_BAD_BUFFER_SIZE)
    then Some (Return Status)
    else if (ErrSourceDescSize ErrorSourceDescInfo =? 0)
            || (ErrSourceDescCount ErrorSourceDescInfo =? 0)
    then Some (Return EFI_SUCCESS)
    else
      let CommBufferSize :=
        UINTN (MM_COMMUNICATE_HEADER_SIZE
               + HEST_ERROR_SOURCE_DESC_INFO_SIZE
               + ErrSourceDescSize ErrorSourceDescInfo) in
      let CommunicationHeader := AllocatePool_second svc CommBufferSize in
      if CommunicationHeader =? 0 then Some (Return EFI_OUT_OF_RESOURCES)
      else
        r <- GetErrorSourceDescriptors (Communicate_second svc)
               CommBufferSize ;;
        let '(Status, ErrorSourceDescInfo) := r in
        if EFI_ERROR Status then Some (Return Status)
        else if ErrSourceDescList_address CommunicationHeader =? 0
        then Some (Return EFI_SUCCESS)
        else Some (ReturnAppend
                     (Some (ErrSourceDescList ErrorSourceDescInfo))
                     (ErrSourceDescSize ErrorSourceDescInfo)
                     (ErrSourceDescCount ErrorSourceDescInfo)).

(** [AppendMmErrorSources] against the HEST driver of this package. *)
Definition AppendMmErrorSources (pcd : HestDxe.Pcd) (env : HestDxe.CallEnv)
    (svc : Services) (d : HestDxe.HEST_DXE_DRIVER_DATA)
  : option (EFI_STATUS * HestDxe.HEST_DXE_DRIVER_DATA) :=
  e <- AppendMmErrorSources_steps svc ;;
  match e with
  | Return Status => Some (Status, d)
  | ReturnAppend List Size Count =>
      HestDxe.AppendErrorSourceDescriptor pcd env List Size Count d
  end.

(** Modelled from the spec: the boundary channel.  The MM Communication2
    protocol and the dispatch of the MM core are not among the files
    embedded here; the channel is the synchronous call of section 6 of
    the specification, which hands the message to the gateway's handler,
    lets it change the buffer in place and returns its status.  [Data]
    gives the contents of a fresh buffer of a given message length. *)
Definition Channel (db : list Handle) (granted : bool)
    (Data : N -> HEST_ERROR_SOURCE_DESC_INFO) (MessageLength : N)
  : option (EFI_STATUS * HEST_ERROR_SOURCE_DESC_INFO) :=
  HestErrorSourcesInfoMmiHandler db granted (Data MessageLength)
    MessageLength.

End ErrorSourceDxe.

(** ** Concrete platforms and runs the properties are checked on *)

Module Scenario.
Import Base Mem HestDxe.

(** Sample values for the ACPI PCDs. *)
Definition pcd : Pcd :=
  {| PcdAcpiDefaultOemId := [x49; x4e; x54; x45; x4c; x20];
     PcdAcpiDefaultOemTableId := 0x20202020324B4445;
     PcdAcpiDefaultOemRevision := 0x00000002;
     PcdAcpiDefaultCreatorId := 0x20202020;
     PcdAcpiDefaultCreatorRevision := 0x01000013 |}.

(** A stack slot that holds [length] and [checksum] where
    [BuildHestHeader] leaves its local unassigned. *)
Definition slot (length checksum : N)
  : EFI_ACPI_6_3_HARDWARE_ERROR_SOURCE_TABLE_HEADER :=
  {| Header :=
       {| Signature := 0; Length := length; Revision := 0;
          Checksum := checksum; OemId := []; OemTableId := 0;
          OemRevision := 0; CreatorId := 0; CreatorRevision := 0 |};
     ErrorSourceCount := 0 |}.

(** The pool serves every request; the slot is all zero. *)
Definition plentiful : CallEnv :=
  {| header_granted := true; growth_granted := true;
     HestHeader_slot := slot 0 0 |}.

(** The pool cannot serve the growth of the table. *)
Definition exhausted : CallEnv :=
  {| header_granted := true; growth_granted := false;
     HestHeader_slot := slot 0 0 |}.

(** The pool serves every request; the slot holds a stale byte where the
    checksum field lies. *)
Definition stale : CallEnv :=
  {| header_granted := true; growth_granted := true;
     HestHeader_slot := slot 0 1 |}.

Definition call (env : CallEnv) (bytes : list byte) (count : N)
  : AppendCall :=
  {| call_env := env; call_List := Some bytes;
     call_Size := len bytes; call_Count := count |}.

(** Two descriptors of two bytes each, then three of one byte each. *)
Definition two_calls : list AppendCall :=
  [call plentiful [x01; x02; x03; x04] 2; call plentiful [x05; x06; x07] 3].

(** One call that declares [2 ^ 32] descriptors in one byte. *)
Definition overcounted : list AppendCall :=
  [call plentiful [x00] (2 ^ 32)].

(** The driver data after one call that appends the byte 1 as one
    descriptor: a table of 41 bytes. *)
Definition one_byte_table : HEST_DXE_DRIVER_DATA :=
  match AppendErrorSourceDescriptor pcd plentiful (Some [x01]) 1 1
          mHestDriverData_initial with
  | Some (_, d) => d
  | None => mHestDriverData_initial
  end.

End Scenario.

Module MmScenario.
Import Base Mem StandaloneMm ErrorSourceDxe.

(** An MM driver that follows the protocol: it declares [count]
    descriptors in the bytes [data], and stores them when it is given a
    buffer. *)
Definition producer (count : N) (data : list byte) : Handle :=
  {| MmHandleProtocol_Status := EFI_SUCCESS;
     Interface :=
       {| GetHestErrorSourceDescriptors := fun Buffer =>
            match Buffer with
            | None =>
                {| reply_Status := EFI_INVALID_PARAMETER;
                   reply_SourceLength := len data;
                   reply_SourceCount := count;
                   reply_Written := [] |}
            | Some _ =>
                {| reply_Status := EFI_SUCCESS;
                   reply_SourceLength := len data;
                   reply_SourceCount := count;
                   reply_Written := data |}
            end |} |}.

(** An MM driver that declares [count] descriptors in [length] bytes and
    then answers [Status], storing nothing, when it is given a buffer. *)
Definition failing (Status : EFI_STATUS) (count length : N) : Handle :=
  {| MmHandleProtocol_Status := EFI_SUCCESS;
     Interface :=
       {| GetHestErrorSourceDescriptors := fun Buffer =>
            match Buffer with
            | None =>
                {| reply_Status := EFI_INVALID_PARAMETER;
                   reply_SourceLength := length;
                   reply_SourceCount := count;
                   reply_Written := [] |}
            | Some _ =>
                {| reply_Status := Status;
                   reply_SourceLength := length;
                   reply_SourceCount := count;
                   reply_Written := [] |}
            end |} |}.

(** A communication buffer of [size] bytes that nobody wrote to yet. *)
Definition fresh (size : N) : HEST_ERROR_SOURCE_DESC_INFO :=
  {| ErrSourceDescCount := 0xAFAFAFAFAFAFAFAF;
     ErrSourceDescSize := 0xAFAFAFAFAFAFAFAF;
     ErrSourceDescList :=
       repeat xaf (N.to_nat (size - HEST_ERROR_SOURCE_DESC_INFO_SIZE)) |}.

(** Three drivers that declare (1, 16 bytes), (2, 32 bytes) and (0, no
    byte). *)
Definition three : list Handle :=
  [producer 1 (repeat x11 16); producer 2 (repeat x22 32); producer 0 []].

(** Three drivers that declare three descriptors in 96 bytes. *)
Definition ninety_six : list Handle :=
  [producer 1 (repeat x11 32); producer 1 (repeat x22 32);
   producer 1 (repeat x33 32)].

(** Two drivers that declare [2 ^ 63] bytes each. *)
Definition huge : list Handle :=
  [failing EFI_NOT_FOUND 1 (2 ^ 63); failing EFI_NOT_FOUND 1 (2 ^ 63)].

(** A driver that follows the protocol, then one that fails once it is
    given a buffer; and the same two the other way round. *)
Definition failing_last : list Handle :=
  [producer 1 [x01; x02]; failing EFI_DEVICE_ERROR 1 2].

Definition failing_first : list Handle :=
  [failing EFI_DEVICE_ERROR 1 2; producer 1 [x01; x02]].

(** The services of a platform whose channel is [Channel] over the
    handles [db], with memory to be had everywhere. *)
Definition services (db : list Handle) : Services :=
  {| AllocatePool_first := fun _ => 0x80000000;
     Communicate_first := Channel db true fresh;
     AllocatePool_second := fun _ => 0x80001000;
     Communicate_second := Channel db true fresh |}.

End MmScenario.

(** ** The entry points of the three drivers *)

Module EntryPoints.
Import Base Mem StandaloneMm ErrorSourceDxe.

(** What [HestInitialize] did: the status it returns, and whether it
    called [InstallProtocolInterface] for the HEST table protocol. *)
Record Initialized : Type := {
  init_Status : EFI_STATUS;
  init_InstallCalled : bool
}.

(** [HestInitialize] of HestDxe.c.  The arguments are what the two boot
    services answer: [LocateProtocol] for the ACPI table protocol and
    [InstallProtocolInterface] for the HEST table protocol. *)
Definition HestInitialize
    (LocateProtocol_Status InstallProtocolInterface_Status : EFI_STATUS)
  : Initialized :=
  let Status := LocateProtocol_Status in
  if EFI_ERROR Status
  then {| init_Status := Status; init_InstallCalled := false |}
  else
    let Status := InstallProtocolInterface_Status in
    if EFI_ERROR Status
    then {| init_Status := Status; init_InstallCalled := true |}
    else {| init_Status := EFI_SUCCESS; init_InstallCalled := true |}.

(** [HestErrorSourceInitialize] of HestErrorSourceDxe.c.  The first two
    arguments are what [LocateProtocol] answers for the HEST table
    protocol and for the MM Communication2 protocol; the status of
    [AppendMmErrorSources] is logged and dropped. *)
Definition HestErrorSourceInitialize
    (LocateHestTable_Status LocateMmCommunication2_Status : EFI_STATUS)
    (pcd : HestDxe.Pcd) (env : HestDxe.CallEnv) (svc : Services)
    (d : HestDxe.HEST_DXE_DRIVER_DATA)
  : option (EFI_STATUS * HestDxe.HEST_DXE_DRIVER_DATA) :=
  let Status := LocateHestTable_Status in
  if EFI_ERROR Status then Some (Status, d)
  else
    let Status := LocateMmCommunication2_Status in
    if EFI_ERROR Status then Some (Status, d)
    else
      r <- AppendMmErrorSources pcd env svc d ;;
      Some (EFI_SUCCESS, snd r).

End EntryPoints.

(** ** What the tables and replies are compared with *)

Module Wire.
Import Base Mem HestDxe StandaloneMm ErrorSourceDxe.

(** The sizes of the two communication buffers of
    [AppendMmErrorSources]: the communicate header and the two fields,
    and for the second the bytes the first reply declares. *)
Definition first_size : N :=
  UINTN (MM_COMMUNICATE_HEADER_SIZE + HEST_ERROR_SOURCE_DESC_INFO_SIZE).

Definition second_size (Info : HEST_ERROR_SOURCE_DESC_INFO) : N :=
  UINTN (MM_COMMUNICATE_HEADER_SIZE + HEST_ERROR_SOURCE_DESC_INFO_SIZE
         + ErrSourceDescSize Info).

(** The descriptor bytes a run of calls hands over, in the order of the
    calls: of each list, as many bytes as the call's size says. *)
Definition appended_bytes (calls : list AppendCall) : list byte :=
  flat_map
    (fun c =>
       match call_List c with
       | Some l => firstn (N.to_nat (call_Size c)) l
       | None => []
       end)
    calls.

(** The bytes of the header from offset 10 to offset 36, as
    [BuildHestHeader] takes them from the PCDs. *)
Definition pcd_bytes (pcd : Pcd) : list byte :=
  fit 6 (PcdAcpiDefaultOemId pcd)
  ++ le_bytes 8 (PcdAcpiDefaultOemTableId pcd)
  ++ le_bytes 4 (PcdAcpiDefaultOemRevision pcd)
  ++ le_bytes 4 (PcdAcpiDefaultCreatorId pcd)
  ++ le_bytes 4 (PcdAcpiDefaultCreatorRevision pcd).

(** A table of the header and [sizes] bytes: signature, revision and the
    PCD fields as [BuildHestHeader] wrote them, [counts] error sources,
    and [body] behind the header. *)
Definition table_built (pcd : Pcd) (buf : list byte) (counts sizes : N)
    (body : list byte) : Prop :=
  len buf = sizeof_HEST_TABLE_HEADER + sizes
  /\ Read32 buf 0 = Some EFI_ACPI_6_3_HARDWARE_ERROR_SOURCE_TABLE_SIGNATURE
  /\ Read8 buf 8 = Some EFI_ACPI_6_3_HARDWARE_ERROR_SOURCE_TABLE_REVISION
  /\ ReadMem buf 10 26 = Some (pcd_bytes pcd)
  /\ Read32 buf offset_ErrorSourceCount = Some (UINT32 counts)
  /\ ReadMem buf sizeof_HEST_TABLE_HEADER sizes = Some body.

(** The same with the length field set, as every successful call of the
    append service leaves it. *)
Definition table_wire (pcd : Pcd) (buf : list byte) (counts sizes : N)
    (body : list byte) : Prop :=
  table_built pcd buf counts sizes body
  /\ Read32 buf offset_Length = Some (sizeof_HEST_TABLE_HEADER + sizes).

(** The driver data between calls, with what went in so far. *)
Definition data_wire (pcd : Pcd) (d : HEST_DXE_DRIVER_DATA)
    (counts sizes : N) (body : list byte) : Prop :=
  match HestTable d with
  | NULL => counts = 0 /\ sizes = 0 /\ body = []
  | Live buf =>
      CurrentTableSize d = sizeof_HEST_TABLE_HEADER + sizes
      /\ table_wire pcd buf counts sizes body
  | Freed => False
  end.

(** An MM driver that follows the protocol of HestErrorSourceInfo.h for
    [count] descriptors in the bytes [data]: the protocol is there, a
    null buffer is answered by [EFI_INVALID_PARAMETER] with the length and
    the count, a buffer by [EFI_SUCCESS] with the bytes stored in it. *)
Definition follows_protocol (h : Handle) (spec : N * list byte) : Prop :=
  EFI_ERROR (MmHandleProtocol_Status h) = false
  /\ reply_Status (probe_reply h) = EFI_INVALID_PARAMETER
  /\ reply_SourceLength (probe_reply h) = len (snd spec)
  /\ reply_SourceCount (probe_reply h) = fst spec
  /\ forall cursor,
       reply_Status (fill_reply h cursor) = EFI_SUCCESS
       /\ reply_SourceLength (fill_reply h cursor) = len (snd spec)
       /\ reply_Written (fill_reply h cursor) = snd spec.

Definition spec_bytes (specs : list (N * list byte)) : list byte :=
  flat_map snd specs.

Definition spec_count (specs : list (N * list byte)) : N :=
  fold_right (fun s acc => fst s + acc) 0 specs.

End Wire.

(** ** More platforms and runs *)

Module MoreScenario.
Import Base Mem HestDxe StandaloneMm ErrorSourceDxe.

(** The pool cannot serve the header of the first table. *)
Definition no_header : CallEnv :=
  {| header_granted := false; growth_granted := true;
     HestHeader_slot := Scenario.slot 0 0 |}.

(** The three drivers of [MmScenario.three] as the protocol sees them:
    count and bytes. *)
Definition three_specs : list (N * list byte) :=
  [(1, repeat x11 16); (2, repeat x22 32); (0, [])].

(** A driver that has nothing to declare. *)
Definition idle : list Handle := [MmScenario.producer 0 []].

(** Services whose channel hands the handler's reply over and reports a
    buffer that is too small, on the first call, as
    [EFI_BAD_BUFFER_SIZE]. *)
Definition relabelling (db : list Handle) : Services :=
  {| AllocatePool_first := fun _ => 0x80000000;
     Communicate_first := fun n =>
       option_map
         (fun r => (if fst r =? EFI_BUFFER_TOO_SMALL
                    then EFI_BAD_BUFFER_SIZE else fst r, snd r))
         (Channel db true MmScenario.fresh n);
     AllocatePool_second := fun _ => 0x80001000;
     Communicate_second := Channel db true MmScenario.fresh |}.

End MoreScenario.

(** * Properties *)

(** ** Bytes and bounded copies *)

Section MemFacts.
Import Base Mem.

Lemma byte_of_N_value (n : N) : Byte.to_N (byte_of_N n) = n mod 256.
Proof.
  unfold byte_of_N.
  destruct (Byte.of_N (n mod 256)) as [b|] eqn:E.
  - now apply Byte.to_of_N.
  - apply Byte.of_N_None_iff in E.
    pose proof (N.mod_upper_bound n 256). lia.
Qed.

Lemma le_bytes_length (w : nat) (v : N) : length (le_bytes w v) = w.
Proof. revert v; induction w; intros; simpl; auto. Qed.

Lemma le_value_le_bytes (w : nat) (v : N) :
  le_value (le_bytes w v) = v mod 256 ^ N.of_nat w.
Proof.
  revert v; induction w as [|w IH]; intros v.
  - simpl. now rewrite N.mod_1_r.
  - cbn [le_bytes le_value]. rewrite byte_of_N_value, IH.
    rewrite Nnat.Nat2N.inj_succ, N.pow_succ_r'.
    rewrite N.Div0.mod_mul_r. reflexivity.
Qed.

Lemma len_app (a b : list byte) : len (a ++ b) = len a + len b.
Proof. unfold len. rewrite length_app. lia. Qed.

Lemma len_ZeroMem (n : N) : len (ZeroMem n) = n.
Proof. unfold len, ZeroMem. rewrite repeat_length. lia. Qed.

Lemma len_le_bytes (w : nat) (v : N) : len (le_bytes w v) = N.of_nat w.
Proof. unfold len. now rewrite le_bytes_length. Qed.

Lemma ReadMem_len (buf out : list byte) (off n : N) :
  ReadMem buf off n = Some out -> len out = n.
Proof.
  unfold ReadMem, len.
  destruct (n =? 0) eqn:Z; [apply N.eqb_eq in Z; intros [= <-]; simpl; lia|].
  destruct (off + n <=? N.of_nat (length buf)) eqn:L; [|discriminate].
  apply N.leb_le in L. intros [= <-].
  rewrite length_firstn, length_skipn. lia.
Qed.

Lemma ReadMem_all (buf : list byte) : ReadMem buf 0 (len buf) = Some buf.
Proof.
  unfold ReadMem, len.
  destruct (N.of_nat (length buf) =? 0) eqn:Z.
  - apply N.eqb_eq in Z. destruct buf; [reflexivity|simpl in Z; lia].
  - rewrite N.add_0_l, N.leb_refl. simpl.
    now rewrite Nnat.Nat2N.id, firstn_all.
Qed.

Lemma CopyMem_len (buf src out : list byte) (off : N) :
  CopyMem buf off src = Some out -> len out = len buf.
Proof.
  unfold CopyMem, len.
  destruct (N.of_nat (length src) =? 0); [now intros [= <-]|].
  destruct (off + N.of_nat (length src) <=? N.of_nat (length buf)) eqn:L;
    [|discriminate].
  apply N.leb_le in L. intros [= <-].
  rewrite !length_app, length_firstn, length_skipn. lia.
Qed.

Lemma firstn_skipn_app_l (a x : list byte) (k n : nat) :
  (k + n <= length a)%nat ->
  firstn n (skipn k (a ++ x)) = firstn n (skipn k a).
Proof.
  intros H. rewrite skipn_app, firstn_app, length_skipn.
  replace (n - (length a - k))%nat with 0%nat by lia.
  now rewrite firstn_O, app_nil_r.
Qed.

(** A read that ends where a copy starts, or earlier, sees the old bytes. *)
Lemma ReadMem_CopyMem_before (buf src out : list byte) (off off' n : N) :
  CopyMem buf off src = Some out -> off' + n <= off ->
  ReadMem out off' n = ReadMem buf off' n.
Proof.
  intros C B. pose proof (CopyMem_len _ _ _ _ C) as Hl.
  revert C. unfold CopyMem.
  destruct (len src =? 0); [now intros [= <-]|].
  destruct (off + len src <=? len buf) eqn:L; [|discriminate].
  apply N.leb_le in L. intros [= E].
  unfold ReadMem. rewrite Hl.
  destruct (n =? 0); [reflexivity|].
  destruct (off' + n <=? len buf); [|reflexivity].
  f_equal. rewrite <- E. unfold len in L.
  assert (La : length (firstn (N.to_nat off) buf) = N.to_nat off)
    by (rewrite length_firstn; lia).
  rewrite firstn_skipn_app_l by lia.
  rewrite <- (firstn_skipn_app_l _ (skipn (N.to_nat off) buf)) by lia.
  now rewrite firstn_skipn.
Qed.

(** A read that starts where a copy ends, or later, sees the old bytes. *)
Lemma ReadMem_CopyMem_after (buf src out : list byte) (off off' n : N) :
  CopyMem buf off src = Some out -> off + len src <= off' ->
  ReadMem out off' n = ReadMem buf off' n.
Proof.
  intros C B. pose proof (CopyMem_len _ _ _ _ C) as Hl.
  revert C. unfold CopyMem.
  destruct (len src =? 0); [now intros [= <-]|].
  destruct (off + len src <=? len buf) eqn:L; [|discriminate].
  apply N.leb_le in L. intros [= <-].
  unfold ReadMem. rewrite Hl.
  destruct (n =? 0); [reflexivity|].
  destruct (off' + n <=? len buf); [|reflexivity].
  f_equal. f_equal. unfold len in *.
  rewrite app_assoc, skipn_app.
  rewrite skipn_all2 by (rewrite length_app, length_firstn; lia).
  rewrite skipn_skipn, length_app, length_firstn. simpl.
  f_equal. lia.
Qed.

(** A read of exactly the bytes a copy stored gives them back. *)
Lemma ReadMem_CopyMem_same (buf src out : list byte) (off : N) :
  CopyMem buf off src = Some out -> ReadMem out off (len src) = Some src.
Proof.
  intros C. pose proof (CopyMem_len _ _ _ _ C) as Hl.
  revert C. unfold CopyMem, ReadMem.
  destruct (len src =? 0) eqn:Z.
  - intros _. apply N.eqb_eq in Z. unfold len in Z.
    destruct src; [reflexivity|simpl in Z; lia].
  - destruct (off + len src <=? len buf) eqn:L; [|discriminate].
    intros [= E]. rewrite Hl, L. f_equal. rewrite <- E.
    apply N.leb_le in L. unfold len in *.
    rewrite skipn_app, skipn_all2 by (rewrite length_firstn; lia).
    rewrite length_firstn. simpl.
    replace (N.to_nat off - Nat.min (N.to_nat off) (length buf))%nat
      with 0%nat by lia.
    simpl. rewrite firstn_app, Nnat.Nat2N.id, firstn_all.
    now rewrite Nat.sub_diag, firstn_O, app_nil_r.
Qed.

Lemma Read32_Write32_same (buf out : list byte) (off v : N) :
  Write32 buf off v = Some out -> Read32 out off = Some (UINT32 v).
Proof.
  intros W. unfold Read32.
  change 4 with (len (le_bytes 4 v)).
  rewrite (ReadMem_CopyMem_same _ _ _ _ W). cbn [option_map].
  now rewrite le_value_le_bytes.
Qed.

Lemma Read32_Write32_other (buf out : list byte) (off off' v : N) :
  Write32 buf off v = Some out -> off' + 4 <= off \/ off + 4 <= off' ->
  Read32 out off' = Read32 buf off'.
Proof.
  intros W [B|B]; unfold Read32.
  - now rewrite (ReadMem_CopyMem_before _ _ _ _ _ _ W B).
  - rewrite (ReadMem_CopyMem_after _ _ _ _ _ _ W); [reflexivity|].
    now rewrite len_le_bytes.
Qed.

End MemFacts.

(** ** Status codes *)

Section StatusFacts.
Import Base.

Lemma UINT32_UINTN (x : N) : UINT32 (UINTN x) = UINT32 x.
Proof.
  unfold UINT32, UINTN.
  change (2 ^ 64) with (2 ^ 32 * 2 ^ 32).
  rewrite N.Div0.mod_mul_r, N.mul_comm, N.Div0.mod_add.
  now rewrite N.Div0.mod_mod.
Qed.

Lemma UINT32_idem (x : N) : UINT32 (UINT32 x) = UINT32 x.
Proof. unfold UINT32. now rewrite N.Div0.mod_mod. Qed.

Lemma UINT32_add_l (x y : N) : UINT32 (UINT32 x + y) = UINT32 (x + y).
Proof. unfold UINT32. now rewrite N.Div0.add_mod_idemp_l. Qed.

Lemma UINT32_small (x : N) : x < 2 ^ 32 -> UINT32 x = x.
Proof. apply N.mod_small. Qed.

Lemma UINTN_add_l (x y : N) : UINTN (UINTN x + y) = UINTN (x + y).
Proof. unfold UINTN. now rewrite N.Div0.add_mod_idemp_l. Qed.

Lemma UINTN_small (x : N) : x < 2 ^ 64 -> UINTN x = x.
Proof. apply N.mod_small. Qed.

End StatusFacts.

(** ** HestDxe.c *)

Section HestDxeFacts.
Import Base Mem HestDxe.
Variable pcd : Pcd.

Lemma bind_Some {A B : Type} (m : option A) (k : A -> option B) (b : B) :
  Mem.bind m k = Some b -> exists a, m = Some a /\ k a = Some b.
Proof. destruct m; simpl; [eauto|discriminate]. Qed.

Lemma ReadMem_app_l (a x : list byte) (off n : N) :
  off + n <= len a -> ReadMem (a ++ x) off n = ReadMem a off n.
Proof.
  intros H. unfold ReadMem. rewrite len_app.
  destruct (n =? 0); [reflexivity|].
  destruct (off + n <=? len a) eqn:L; [|apply N.leb_gt in L; lia].
  destruct (off + n <=? len a + len x) eqn:L'; [|apply N.leb_gt in L'; lia].
  unfold len in H. now rewrite firstn_skipn_app_l by lia.
Qed.

Lemma header_bytes_length
    (h : EFI_ACPI_6_3_HARDWARE_ERROR_SOURCE_TABLE_HEADER) :
  length (header_bytes h) = 40%nat.
Proof.
  unfold header_bytes, fit.
  rewrite !length_app, !le_bytes_length, length_firstn, length_app,
    repeat_length. rewrite Nat.min_l by lia. reflexivity.
Qed.

Lemma Read32_header_count
    (h : EFI_ACPI_6_3_HARDWARE_ERROR_SOURCE_TABLE_HEADER) :
  Read32 (header_bytes h) offset_ErrorSourceCount
  = Some (UINT32 (ErrorSourceCount h)).
Proof.
  unfold Read32, ReadMem, offset_ErrorSourceCount, len.
  rewrite (header_bytes_length h).
  change (4 =? 0) with false.
  change (36 + 4 <=? N.of_nat 40) with true. cbv iota.
  change (N.to_nat 36) with 36%nat. change (N.to_nat 4) with 4%nat.
  unfold header_bytes. rewrite !app_assoc.
  match goal with |- context [skipn 36 (?p ++ _)] =>
    assert (P : length p = 36%nat)
  end.
  { unfold fit. rewrite !length_app, !le_bytes_length, length_firstn,
      length_app, repeat_length. rewrite Nat.min_l by lia. reflexivity. }
  rewrite skipn_app, P, skipn_all2 by lia.
  cbn [app skipn Nat.sub].
  rewrite <- (le_bytes_length 4 (ErrorSourceCount h)) at 1.
  rewrite firstn_all. cbn [option_map]. now rewrite le_value_le_bytes.
Qed.

(** [BuildHestHeader] with memory to be had: a table of just the header
    with no error source counted. *)
Lemma BuildHestHeader_granted (env : CallEnv) (d : HEST_DXE_DRIVER_DATA) :
  header_granted env = true ->
  exists buf,
    BuildHestHeader pcd env d
    = Some (EFI_SUCCESS,
            {| HestTable := Live buf;
               CurrentTableSize := sizeof_HEST_TABLE_HEADER |})
    /\ len buf = sizeof_HEST_TABLE_HEADER
    /\ Read32 buf offset_ErrorSourceCount = Some 0.
Proof.
  intros G. unfold BuildHestHeader, ReallocateHestTableMemory,
    ReallocateReservedPool. rewrite G. cbn [negb Mem.bind].
  match goal with |- context [header_bytes ?h] => set (H := h) end.
  exists (header_bytes H).
  assert (L : len (header_bytes H) = 40)
    by (unfold len; now rewrite header_bytes_length).
  split; [|split].
  - unfold CopyMem. rewrite L. cbn [N.eqb].
    change (0 + 40 <=? len (ZeroMem sizeof_HEST_TABLE_HEADER)) with true.
    cbn iota. cbn [Mem.bind]. do 3 f_equal.
    change (skipn (N.to_nat (0 + 40)) (ZeroMem sizeof_HEST_TABLE_HEADER))
      with (@nil byte).
    cbn [firstn N.to_nat app]. now rewrite app_nil_r.
  - exact L.
  - now rewrite Read32_header_count.
Qed.

Lemma status_codes_differ :
  (EFI_INVALID_PARAMETER =? EFI_SUCCESS) = false
  /\ (EFI_OUT_OF_RESOURCES =? EFI_SUCCESS) = false
  /\ (EFI_SUCCESS =? EFI_OUT_OF_RESOURCES) = false.
Proof. repeat split. Qed.

(** The growth of a table that exists: a call that returns [EFI_SUCCESS]
    adds its count to the count field, modulo [2 ^ 32], and its size to
    the length field and to the size of the table. *)
Lemma Append_Live (env : CallEnv) (l buf : list byte) (Size Count c s : N)
    (d d' : HEST_DXE_DRIVER_DATA) :
  HestTable d = Live buf ->
  Read32 buf offset_ErrorSourceCount = Some (UINT32 c) ->
  CurrentTableSize d = sizeof_HEST_TABLE_HEADER + s ->
  len buf = sizeof_HEST_TABLE_HEADER + s ->
  AppendErrorSourceDescriptor pcd env (Some l) Size Count d
  = Some (EFI_SUCCESS, d') ->
  table_inv d' (c + Count) (s + Size).
Proof.
  intros HT HC HS HL A. unfold AppendErrorSourceDescriptor in A.
  destruct (Size =? 0) eqn:Z; [discriminate A|].
  apply N.eqb_neq in Z.
  rewrite HT in A. cbn [Mem.bind] in A.
  change (EFI_SUCCESS =? EFI_OUT_OF_RESOURCES) with false in A.
  cbv iota in A.
  unfold ReallocateHestTableMemory, ReallocateReservedPool in A.
  destruct (growth_granted env); cbn [negb Mem.bind] in A;
    [|discriminate A].
  rewrite UINT32_UINTN, HS, HT in A.
  unfold sizeof_HEST_TABLE_HEADER in *.
  set (Cur := 40 + s) in *. set (New := UINT32 (Cur + Size)) in *.
  assert (NewB : New < 2 ^ 32) by (apply N.mod_upper_bound; discriminate).
  apply bind_Some in A as (p & K & A).
  apply bind_Some in K as (kept & K & E). injection E as <-.
  pose proof (ReadMem_len _ _ _ _ K) as LK.
  apply bind_Some in A as (src & R & A).
  pose proof (ReadMem_len _ _ _ _ R) as LS.
  apply bind_Some in A as (b2 & C2 & A).
  assert (Fit : Cur + Size <= New).
  { revert C2. unfold CopyMem. rewrite LS.
    destruct (Size =? 0) eqn:Z'; [apply N.eqb_eq in Z'; lia|].
    destruct (Cur + Size <=? len (kept ++ ZeroMem (New - N.min Cur New)))
      eqn:F; [|discriminate].
    intros _. apply N.leb_le in F.
    rewrite len_app, len_ZeroMem, LK in F. lia. }
  assert (NoWrap : New = Cur + Size).
  { pose proof (N.Div0.mod_le (Cur + Size) (2 ^ 32)).
    unfold New, UINT32 in *. lia. }
  assert (Kept : kept = buf).
  { rewrite N.min_l in K by lia. rewrite <- HL, ReadMem_all in K.
    now injection K. }
  subst kept.
  apply bind_Some in A as (b3 & W3 & A).
  apply bind_Some in A as (count & RC & A).
  apply bind_Some in A as (b4 & W4 & A).
  injection A as <-.
  unfold table_inv, offset_ErrorSourceCount, offset_Length in *.
  cbn [HestTable CurrentTableSize].
  assert (RC' : count = UINT32 c).
  { rewrite (Read32_Write32_other _ _ _ _ _ W3) in RC by (right; lia).
    unfold Read32 in RC.
    rewrite (ReadMem_CopyMem_before _ _ _ _ _ _ C2) in RC by (subst Cur; lia).
    rewrite ReadMem_app_l in RC by lia.
    unfold Read32 in HC. rewrite HC in RC. now injection RC. }
  subst count.
  repeat split.
  - rewrite (Read32_Write32_same _ _ _ _ W4).
    now rewrite UINT32_idem, UINT32_UINTN, UINT32_add_l.
  - rewrite (Read32_Write32_other _ _ _ _ _ W4) by (left; lia).
    rewrite (Read32_Write32_same _ _ _ _ W3).
    rewrite UINT32_small by lia. f_equal.
    unfold sizeof_HEST_TABLE_HEADER. lia.
  - unfold sizeof_HEST_TABLE_HEADER. lia.
  - rewrite (CopyMem_len _ _ _ _ W4), (CopyMem_len _ _ _ _ W3),
      (CopyMem_len _ _ _ _ C2), len_app, len_ZeroMem.
    unfold sizeof_HEST_TABLE_HEADER. lia.
Qed.

End HestDxeFacts.

Section AggregatorClaims.
Import Base Mem HestDxe.
Variable pcd : Pcd.

Lemma Append_Size_nonzero (env : CallEnv) (List : option (list byte))
    (Size Count : N) (d d' : HEST_DXE_DRIVER_DATA) :
  AppendErrorSourceDescriptor pcd env List Size Count d
  = Some (EFI_SUCCESS, d') -> Size <> 0.
Proof.
  unfold AppendErrorSourceDescriptor.
  destruct List; [|discriminate].
  destruct (Size =? 0) eqn:Z; [discriminate|].
  intros _. now apply N.eqb_neq.
Qed.

(** One successful call keeps the invariant, with the call's count and
    size added. *)
Lemma Append_step (env : CallEnv) (List : option (list byte))
    (Size Count c s : N) (d d' : HEST_DXE_DRIVER_DATA) :
  table_inv d c s ->
  AppendErrorSourceDescriptor pcd env List Size Count d
  = Some (EFI_SUCCESS, d') ->
  table_inv d' (c + Count) (s + Size).
Proof.
  intros I A. pose proof (Append_Size_nonzero _ _ _ _ _ _ A) as Z.
  destruct List as [l|]; [|discriminate A].
  unfold table_inv in I.
  destruct (HestTable d) as [|buf|] eqn:HT;
    [|destruct I as (HC & _ & HS & HL)|tauto].
  - destruct I as [-> ->].
    destruct (header_granted env) eqn:G.
    + destruct (BuildHestHeader_granted pcd env d G) as (buf & B & L & C).
      eapply (Append_Live pcd env l buf Size Count 0 0
                {| HestTable := Live buf;
                   CurrentTableSize := sizeof_HEST_TABLE_HEADER |});
        try reflexivity; try (rewrite N.add_0_r); try assumption.
      rewrite <- A. unfold AppendErrorSourceDescriptor.
      apply N.eqb_neq in Z. rewrite Z, HT, B. reflexivity.
    + exfalso. revert A. unfold AppendErrorSourceDescriptor.
      apply N.eqb_neq in Z. rewrite Z, HT.
      unfold BuildHestHeader, ReallocateHestTableMemory,
        ReallocateReservedPool.
      rewrite G. cbn. discriminate.
  - eapply Append_Live; eauto.
Qed.

Lemma successful_appends_Size (calls : list AppendCall)
    (d d' : HEST_DXE_DRIVER_DATA) :
  successful_appends pcd calls d = Some d' -> calls <> [] ->
  sum_Size calls <> 0.
Proof.
  destruct calls as [|c rest]; [congruence|]. intros S _.
  cbn [successful_appends] in S.
  apply bind_Some in S as ([st d1] & A & S). cbn [fst snd] in S.
  destruct (st =? EFI_SUCCESS) eqn:E; [|discriminate].
  apply N.eqb_eq in E. subst st.
  apply Append_Size_nonzero in A. cbn [sum_Size fold_right]. lia.
Qed.

(** C1, as amended.  Along every run of calls of the append service that
    all return [EFI_SUCCESS], from driver data that satisfies the
    invariant (the initial data does, with nothing appended), the
    invariant holds again with the counts and sizes of the calls added;
    after at least one call the table's error source count is the sum of
    the counts reduced modulo [2 ^ 32], and its length field is the size
    of the header plus the sum of the sizes, exactly. *)
Theorem appended_counts_and_length (calls : list AppendCall)
    (d d' : HEST_DXE_DRIVER_DATA) (c s : N) :
  table_inv d c s ->
  successful_appends pcd calls d = Some d' ->
  table_inv d' (c + sum_Count calls) (s + sum_Size calls)
  /\ (calls <> [] ->
      table_ErrorSourceCount d' = Some (UINT32 (c + sum_Count calls))
      /\ table_Length d'
         = Some (sizeof_HEST_TABLE_HEADER + (s + sum_Size calls))).
Proof.
  intros I S.
  assert (T : table_inv d' (c + sum_Count calls) (s + sum_Size calls)).
  { revert d c s I S.
    induction calls as [|k rest IH]; intros d c s I S.
    - cbn in S. injection S as <-. cbn. now rewrite !N.add_0_r.
    - cbn [successful_appends] in S.
      apply bind_Some in S as ([st d1] & A & S). cbn [fst snd] in S.
      destruct (st =? EFI_SUCCESS) eqn:E; [|discriminate].
      apply N.eqb_eq in E. subst st.
      pose proof (Append_step _ _ _ _ _ _ _ _ I A) as I1.
      specialize (IH _ _ _ I1 S).
      cbn [sum_Count sum_Size fold_right].
      now rewrite !N.add_assoc. }
  split; [exact T|]. intros NE.
  pose proof (successful_appends_Size _ _ _ S NE) as Z.
  unfold table_inv in T.
  unfold table_ErrorSourceCount, table_Length.
  destruct (HestTable d'); [lia|tauto|tauto].
Qed.

(** C9.  A call of the append service with a null descriptor list or with
    a size of zero returns [EFI_INVALID_PARAMETER] and leaves the driver
    data, the table with it, as it was. *)
Theorem append_rejects_null_or_empty (env : CallEnv)
    (List : option (list byte)) (Size Count : N)
    (d : HEST_DXE_DRIVER_DATA) :
  List = None \/ Size = 0 ->
  AppendErrorSourceDescriptor pcd env List Size Count d
  = Some (EFI_INVALID_PARAMETER, d).
Proof.
  intros [-> | ->]; unfold AppendErrorSourceDescriptor.
  - reflexivity.
  - now destruct List.
Qed.

(** When the pool refuses the growth of an existing table, the call
    returns [EFI_OUT_OF_RESOURCES] and the driver data no longer points
    to the table. *)
Lemma Append_growth_refused (env : CallEnv) (l buf : list byte)
    (Size Count : N) (d : HEST_DXE_DRIVER_DATA) :
  HestTable d = Live buf -> Size <> 0 -> growth_granted env = false ->
  AppendErrorSourceDescriptor pcd env (Some l) Size Count d
  = Some (EFI_OUT_OF_RESOURCES,
          {| HestTable := NULL; CurrentTableSize := CurrentTableSize d |}).
Proof.
  intros HT Z G. unfold AppendErrorSourceDescriptor.
  apply N.eqb_neq in Z. rewrite Z, HT. cbn [Mem.bind].
  change (EFI_SUCCESS =? EFI_OUT_OF_RESOURCES) with false. cbv iota.
  unfold ReallocateHestTableMemory, ReallocateReservedPool.
  now rewrite G.
Qed.

End AggregatorClaims.

Section AggregatorRuns.
Import Base Mem HestDxe.

(** The run [Scenario.two_calls] from the initial driver data: five
    error sources in a table of 47 bytes. *)
Lemma appended_counts_and_length_witness :
  exists d',
    successful_appends Scenario.pcd Scenario.two_calls
      mHestDriverData_initial = Some d'
    /\ table_ErrorSourceCount d' = Some 5
    /\ table_Length d' = Some 47.
Proof.
  destruct (successful_appends Scenario.pcd Scenario.two_calls
              mHestDriverData_initial) as [d'|] eqn:S;
    [|vm_compute in S; discriminate S].
  exists d'. split; [reflexivity|].
  refine (proj2 (appended_counts_and_length Scenario.pcd
                   Scenario.two_calls mHestDriverData_initial d' 0 0
                   _ S) _).
  - split; reflexivity.
  - discriminate.
Defined.

(** C1 as it is stated fails: a call that declares [2 ^ 32] descriptors
    succeeds and leaves an error source count of zero, which is not the
    sum of the counts. *)
Lemma appended_count_wraps :
  exists d',
    successful_appends Scenario.pcd Scenario.overcounted
      mHestDriverData_initial = Some d'
    /\ table_ErrorSourceCount d' = Some 0
    /\ table_ErrorSourceCount d'
       <> Some (sum_Count Scenario.overcounted).
Proof.
  eexists. split; [vm_compute; reflexivity|].
  split; [vm_compute; reflexivity|vm_compute; discriminate].
Qed.

(** A table of 41 bytes is left as it is by a call with a null list and by
    a call with a size of zero. *)
Lemma append_rejects_null_or_empty_witness :
  AppendErrorSourceDescriptor Scenario.pcd Scenario.plentiful
    None 1 1 Scenario.one_byte_table
  = Some (EFI_INVALID_PARAMETER, Scenario.one_byte_table)
  /\ AppendErrorSourceDescriptor Scenario.pcd Scenario.plentiful
       (Some [x01]) 0 1 Scenario.one_byte_table
     = Some (EFI_INVALID_PARAMETER, Scenario.one_byte_table).
Proof.
  split.
  - apply (append_rejects_null_or_empty Scenario.pcd Scenario.plentiful
             None 1 1 Scenario.one_byte_table).
    left. reflexivity.
  - apply (append_rejects_null_or_empty Scenario.pcd Scenario.plentiful
             (Some [x01]) 0 1 Scenario.one_byte_table).
    right. reflexivity.
Defined.

End AggregatorRuns.

(** ** HestErrorSourceStandaloneMm.c *)

Section GatewayFacts.
Import Base Mem StandaloneMm.

Lemma UINTN_bound (x : N) : UINTN x < 2 ^ 64.
Proof. apply N.mod_upper_bound. discriminate. Qed.

(** One turn of the first loop adds what the handle declares, if it
    answers. *)
Lemma probe_step_totals (s : ProbeState) (h : Handle) :
  TotalSourceLength (probe_step s h)
  = (if answers_probe h
     then UINTN (TotalSourceLength s + reply_SourceLength (probe_reply h))
     else TotalSourceLength s)
  /\ TotalSourceCount (probe_step s h)
     = (if answers_probe h
        then UINTN (TotalSourceCount s + reply_SourceCount (probe_reply h))
        else TotalSourceCount s).
Proof.
  unfold probe_step, answers_probe, probe_reply.
  destruct (EFI_ERROR (MmHandleProtocol_Status h)); cbn [negb andb];
    [split; reflexivity|].
  destruct (reply_Status _ =? EFI_INVALID_PARAMETER); split; reflexivity.
Qed.

(** The totals of the first loop: the declared lengths and counts of the
    handles that answer, added up in [UINTN]. *)
Lemma probe_pass_totals (hs : list Handle) (s : ProbeState) :
  TotalSourceLength s < 2 ^ 64 -> TotalSourceCount s < 2 ^ 64 ->
  TotalSourceLength (probe_pass hs s)
  = UINTN (TotalSourceLength s + declared_Length hs)
  /\ TotalSourceCount (probe_pass hs s)
     = UINTN (TotalSourceCount s + declared_Count hs).
Proof.
  revert s. unfold probe_pass.
  induction hs as [|h rest IH]; intros s BL BC.
  - cbn. now rewrite !N.add_0_r, !UINTN_small.
  - cbn [fold_left].
    destruct (probe_step_totals s h) as [SL SC].
    destruct (IH (probe_step s h)) as [EL EC].
    { rewrite SL. destruct (answers_probe h);
        [apply UINTN_bound|assumption]. }
    { rewrite SC. destruct (answers_probe h);
        [apply UINTN_bound|assumption]. }
    rewrite EL, EC, SL, SC. unfold declared_Length, declared_Count.
    cbn [filter]. destruct (answers_probe h); [|split; reflexivity].
    cbn [fold_right]. now rewrite !UINTN_add_l, !N.add_assoc.
Qed.

Lemma GetHandles_first (db : list Handle) :
  db <> [] ->
  GetHestErrorSourceProtocolHandles db 0
  = (EFI_BUFFER_TOO_SMALL, N.of_nat (length db) * sizeof_EFI_HANDLE).
Proof.
  intros NE. unfold GetHestErrorSourceProtocolHandles, MmLocateHandle.
  destruct db as [|h t]; [congruence|].
  destruct (0 <? _) eqn:L; [reflexivity|].
  apply N.ltb_ge in L. unfold sizeof_EFI_HANDLE in L. cbn [length] in L. lia.
Qed.

Lemma GetHandles_second (db : list Handle) :
  db <> [] ->
  GetHestErrorSourceProtocolHandles db
    (N.of_nat (length db) * sizeof_EFI_HANDLE)
  = (EFI_SUCCESS, N.of_nat (length db) * sizeof_EFI_HANDLE).
Proof.
  intros NE. unfold GetHestErrorSourceProtocolHandles, MmLocateHandle.
  destruct db as [|h t]; [congruence|].
  now rewrite N.ltb_irrefl.
Qed.

(** The handler once the buffer holds the two fields and a handle is
    there: the two loops around the check of the buffer size. *)
Lemma handler_two_loops (db : list Handle)
    (CommBuffer : HEST_ERROR_SOURCE_DESC_INFO) (CommBufferSize : N) :
  db <> [] -> HEST_ERROR_SOURCE_DESC_INFO_SIZE <= CommBufferSize ->
  HestErrorSourcesInfoMmiHandler db true CommBuffer CommBufferSize
  = if CommBufferSize
       <? UINTN (UINTN (declared_Length db)
                 + HEST_ERROR_SOURCE_DESC_INFO_SIZE)
    then Some (EFI_BUFFER_TOO_SMALL,
               {| ErrSourceDescCount := UINTN (declared_Count db);
                  ErrSourceDescSize := UINTN (declared_Length db);
                  ErrSourceDescList := ErrSourceDescList CommBuffer |})
    else
      filled <- fill_pass db
                  {| fill_Status :=
                       probe_Status
                         (probe_pass db
                            {| probe_Status := EFI_SUCCESS;
                               TotalSourceLength := 0;
                               TotalSourceCount := 0 |});
                     ErrorSourcePtr := 0;
                     DescList := ErrSourceDescList CommBuffer |} ;;
      Some (fill_Status filled,
            {| ErrSourceDescCount := UINTN (declared_Count db);
               ErrSourceDescSize := UINTN (declared_Length db);
               ErrSourceDescList := DescList filled |}).
Proof.
  intros NE Cap. unfold HestErrorSourcesInfoMmiHandler.
  destruct (CommBufferSize <? HEST_ERROR_SOURCE_DESC_INFO_SIZE) eqn:C;
    [apply N.ltb_lt in C; lia|].
  rewrite (GetHandles_first db NE).
  change (EFI_BUFFER_TOO_SMALL =? EFI_NOT_FOUND) with false.
  destruct (N.of_nat (length db) * sizeof_EFI_HANDLE =? 0) eqn:Z.
  { apply N.eqb_eq in Z. destruct db; [congruence|].
    unfold sizeof_EFI_HANDLE in Z. cbn [length] in Z. lia. }
  cbn [orb negb]. rewrite (GetHandles_second db NE).
  change (EFI_ERROR EFI_SUCCESS) with false. cbv iota.
  unfold sizeof_EFI_HANDLE. rewrite N.div_mul by discriminate.
  rewrite Nnat.Nat2N.id, firstn_all.
  destruct (probe_pass_totals db
              {| probe_Status := EFI_SUCCESS; TotalSourceLength := 0;
                 TotalSourceCount := 0 |}) as [EL EC];
    [reflexivity|reflexivity|].
  cbn [TotalSourceLength TotalSourceCount] in EL, EC.
  rewrite !N.add_0_l in EL, EC. now rewrite EL, EC.
Qed.

Lemma fill_pass_app (a b : list Handle) (s : FillState) :
  fill_pass (a ++ b) s = (s1 <- fill_pass a s ;; fill_pass b s1).
Proof.
  revert s. induction a as [|h a IH]; intros s; cbn; [reflexivity|].
  destruct (fill_step s h); cbn; [apply IH|reflexivity].
Qed.

(** One turn of the second loop: the cursor moves as [cursor_after]
    says, and the bytes below it stay. *)
Lemma fill_step_cursor (s s' : FillState) (h : Handle) :
  fill_step s h = Some s' ->
  ErrorSourcePtr s' = cursor_after [h] (ErrorSourcePtr s)
  /\ ErrorSourcePtr s <= ErrorSourcePtr s'
  /\ forall off n, off + n <= ErrorSourcePtr s ->
       ReadMem (DescList s') off n = ReadMem (DescList s) off n.
Proof.
  unfold fill_step. cbn [cursor_after]. unfold answers_fill, fill_reply.
  destruct (EFI_ERROR (MmHandleProtocol_Status h)); cbn [negb andb].
  - intros [= <-]. cbn. split; [reflexivity|split; [lia|reflexivity]].
  - intros F. apply bind_Some in F as (list & C & F). injection F as <-.
    cbn [ErrorSourcePtr DescList].
    destruct (reply_Status _ =? EFI_SUCCESS);
      (split; [reflexivity|split; [lia|]]);
      intros off n B; now apply (ReadMem_CopyMem_before _ _ _ _ _ _ C).
Qed.

Lemma fill_pass_cursor (hs : list Handle) (s s' : FillState) :
  fill_pass hs s = Some s' ->
  ErrorSourcePtr s' = cursor_after hs (ErrorSourcePtr s)
  /\ ErrorSourcePtr s <= ErrorSourcePtr s'
  /\ forall off n, off + n <= ErrorSourcePtr s ->
       ReadMem (DescList s') off n = ReadMem (DescList s) off n.
Proof.
  revert s. induction hs as [|h rest IH]; intros s F.
  - injection F as <-. cbn. split; [reflexivity|split; [lia|reflexivity]].
  - cbn [fill_pass] in F. apply bind_Some in F as (s1 & F1 & F).
    destruct (fill_step_cursor _ _ _ F1) as (C1 & M1 & K1).
    destruct (IH _ F) as (C & M & K).
    cbn [cursor_after] in C1 |- *. rewrite <- C1.
    split; [exact C|split; [lia|]].
    intros off n B. rewrite K by lia. now apply K1.
Qed.

(** What a handle that answers [EFI_SUCCESS] stored is found at the place
    where the cursor stood when its turn came. *)
Lemma fill_pass_places (pre post : list Handle) (h : Handle)
    (s s' : FillState) :
  fill_pass (pre ++ h :: post) s = Some s' ->
  let cursor := cursor_after pre (ErrorSourcePtr s) in
  answers_fill h cursor = true ->
  len (reply_Written (fill_reply h cursor))
  = reply_SourceLength (fill_reply h cursor) ->
  ReadMem (DescList s') cursor (reply_SourceLength (fill_reply h cursor))
  = Some (reply_Written (fill_reply h cursor)).
Proof.
  intros F cursor A L. rewrite fill_pass_app in F.
  apply bind_Some in F as (s1 & F1 & F).
  destruct (fill_pass_cursor _ _ _ F1) as (C1 & _ & _).
  fold cursor in C1.
  cbn [fill_pass] in F. apply bind_Some in F as (s2 & F2 & F).
  destruct (fill_pass_cursor _ _ _ F) as (_ & _ & K).
  unfold fill_step in F2. unfold answers_fill in A.
  apply andb_prop in A as [A1 A2]. apply negb_true_iff in A1.
  rewrite A1, C1 in F2. fold (fill_reply h cursor) in F2.
  apply bind_Some in F2 as (list & C & F2). injection F2 as <-.
  rewrite A2 in K. cbn [ErrorSourcePtr DescList] in K.
  rewrite K by lia. rewrite <- L.
  now apply ReadMem_CopyMem_same with (buf := DescList s1).
Qed.

Lemma fill_pass_Status (hs : list Handle) (s s' : FillState) :
  fill_pass hs s = Some s' -> Forall never_too_small hs ->
  (hs = [] -> fill_Status s <> EFI_BUFFER_TOO_SMALL) ->
  fill_Status s' <> EFI_BUFFER_TOO_SMALL.
Proof.
  revert s. induction hs as [|h rest IH]; intros s F A S0.
  - injection F as <-. now apply S0.
  - cbn [fill_pass] in F. apply bind_Some in F as (s1 & F1 & F).
    inversion A as [|? ? [N1 N2] A']; subst.
    apply (IH _ F A'). intros _. revert F1. unfold fill_step.
    destruct (EFI_ERROR (MmHandleProtocol_Status h)).
    + now intros [= <-].
    + intros F1. apply bind_Some in F1 as (list & _ & F1).
      injection F1 as <-. apply N2.
Qed.

(** When the second loop runs, the handler returns what its last turn
    left in [Status]: the status of [MmHandleProtocol] for the last handle
    if that is an error, and the answer of the last handle otherwise. *)
Lemma handler_returns_last_Status (pre : list Handle) (h : Handle)
    (CommBuffer out : HEST_ERROR_SOURCE_DESC_INFO)
    (CommBufferSize : N) (Status : EFI_STATUS) :
  HEST_ERROR_SOURCE_DESC_INFO_SIZE <= CommBufferSize ->
  UINTN (UINTN (declared_Length (pre ++ [h]))
         + HEST_ERROR_SOURCE_DESC_INFO_SIZE) <= CommBufferSize ->
  HestErrorSourcesInfoMmiHandler (pre ++ [h]) true CommBuffer
    CommBufferSize = Some (Status, out) ->
  Status
  = if EFI_ERROR (MmHandleProtocol_Status h)
    then MmHandleProtocol_Status h
    else reply_Status (fill_reply h (cursor_after pre 0)).
Proof.
  intros Cap Fit H.
  rewrite handler_two_loops in H; [|now destruct pre|assumption].
  destruct (CommBufferSize <? _) eqn:C; [apply N.ltb_lt in C; lia|].
  apply bind_Some in H as (filled & F & H). injection H as <- _.
  rewrite fill_pass_app in F. apply bind_Some in F as (s1 & F1 & F).
  destruct (fill_pass_cursor _ _ _ F1) as (C1 & _ & _).
  cbn [ErrorSourcePtr] in C1.
  cbn [fill_pass] in F. apply bind_Some in F as (s2 & F2 & F).
  injection F as <-. unfold fill_step in F2.
  destruct (EFI_ERROR (MmHandleProtocol_Status h)).
  - now injection F2 as <-.
  - apply bind_Some in F2 as (list & _ & F2). injection F2 as <-.
    cbn [fill_Status]. unfold fill_reply. now rewrite C1.
Qed.

(** C6, as amended.  Once the buffer holds the two fields and a handle is
    registered, the count and the size the handler writes into the reply
    are the sums, reduced modulo [2 ^ 64], of the counts and lengths
    declared by exactly the handles whose protocol is there and whose
    answer to the query with a null buffer is [EFI_INVALID_PARAMETER];
    the other handles add nothing. *)
Theorem probe_totals_in_reply (db : list Handle)
    (CommBuffer out : HEST_ERROR_SOURCE_DESC_INFO)
    (CommBufferSize : N) (Status : EFI_STATUS) :
  db <> [] -> HEST_ERROR_SOURCE_DESC_INFO_SIZE <= CommBufferSize ->
  HestErrorSourcesInfoMmiHandler db true CommBuffer CommBufferSize
  = Some (Status, out) ->
  ErrSourceDescCount out = UINTN (declared_Count db)
  /\ ErrSourceDescSize out = UINTN (declared_Length db).
Proof.
  intros NE Cap H. rewrite handler_two_loops in H by assumption.
  destruct (CommBufferSize <? _).
  - injection H as _ <-. split; reflexivity.
  - apply bind_Some in H as (filled & _ & H).
    injection H as _ <-. split; reflexivity.
Qed.

(** C7.  When the buffer is large enough for the second loop to run, the
    bytes stored by a handle that answers the query with [EFI_SUCCESS],
    as many as the length it reports, are in the reply at the place of
    the cursor, which starts at the beginning of the descriptor list and
    has moved by the length reported by each handle before it that
    answered [EFI_SUCCESS]. *)
Theorem fill_places_at_cursor (pre post : list Handle) (h : Handle)
    (CommBuffer out : HEST_ERROR_SOURCE_DESC_INFO)
    (CommBufferSize : N) (Status : EFI_STATUS) :
  HEST_ERROR_SOURCE_DESC_INFO_SIZE <= CommBufferSize ->
  UINTN (UINTN (declared_Length (pre ++ h :: post))
         + HEST_ERROR_SOURCE_DESC_INFO_SIZE) <= CommBufferSize ->
  HestErrorSourcesInfoMmiHandler (pre ++ h :: post) true CommBuffer
    CommBufferSize = Some (Status, out) ->
  answers_fill h (cursor_after pre 0) = true ->
  len (reply_Written (fill_reply h (cursor_after pre 0)))
  = reply_SourceLength (fill_reply h (cursor_after pre 0)) ->
  ReadMem (ErrSourceDescList out) (cursor_after pre 0)
    (reply_SourceLength (fill_reply h (cursor_after pre 0)))
  = Some (reply_Written (fill_reply h (cursor_after pre 0))).
Proof.
  intros Cap Fit H A L.
  rewrite handler_two_loops in H;
    [|now destruct pre|assumption].
  destruct (CommBufferSize <? _) eqn:C; [apply N.ltb_lt in C; lia|].
  apply bind_Some in H as (filled & F & H). injection H as _ <-.
  cbn [ErrSourceDescList].
  now apply (fill_pass_places pre post h _ _ F).
Qed.

(** C8, as amended.  Once the buffer holds the two fields, and provided
    the pool serves the handle buffer and no handle itself answers
    [EFI_BUFFER_TOO_SMALL] in the second loop, the handler returns
    [EFI_BUFFER_TOO_SMALL] exactly when the size of the buffer is below
    the total length plus the size of the two fields, the sum taken in
    [UINTN]. *)
Theorem too_small_iff_below_total (db : list Handle)
    (CommBuffer out : HEST_ERROR_SOURCE_DESC_INFO)
    (CommBufferSize : N) (Status : EFI_STATUS) :
  HEST_ERROR_SOURCE_DESC_INFO_SIZE <= CommBufferSize ->
  Forall never_too_small db ->
  HestErrorSourcesInfoMmiHandler db true CommBuffer CommBufferSize
  = Some (Status, out) ->
  Status = EFI_BUFFER_TOO_SMALL
  <-> CommBufferSize
      < UINTN (UINTN (declared_Length db)
               + HEST_ERROR_SOURCE_DESC_INFO_SIZE).
Proof.
  intros Cap A H. destruct db as [|h0 rest].
  - unfold HestErrorSourcesInfoMmiHandler in H.
    destruct (CommBufferSize <? HEST_ERROR_SOURCE_DESC_INFO_SIZE) eqn:C;
      [apply N.ltb_lt in C; lia|].
    cbn in H. injection H as <- _.
    change (UINTN (UINTN (declared_Length [])
                   + HEST_ERROR_SOURCE_DESC_INFO_SIZE))
      with HEST_ERROR_SOURCE_DESC_INFO_SIZE.
    split; [discriminate|lia].
  - rewrite handler_two_loops in H by (assumption || discriminate).
    destruct (CommBufferSize <? _) eqn:C.
    + apply N.ltb_lt in C. injection H as <- _. tauto.
    + apply N.ltb_ge in C. apply bind_Some in H as (filled & F & H).
      injection H as <- _.
      pose proof (fill_pass_Status _ _ _ F A) as S.
      split; [intros E; exfalso; apply S; [congruence|exact E]|lia].
Qed.

End GatewayFacts.

Section GatewayRuns.
Import Base Mem StandaloneMm MmScenario.

(** The three drivers of the specification declare three descriptors in
    48 bytes. *)
Lemma probe_totals_in_reply_witness :
  HestErrorSourcesInfoMmiHandler three true (fresh 16) 16
  = Some (EFI_BUFFER_TOO_SMALL,
          {| ErrSourceDescCount := 3; ErrSourceDescSize := 48;
             ErrSourceDescList := [] |})
  /\ ErrSourceDescCount
       {| ErrSourceDescCount := 3; ErrSourceDescSize := 48;
          ErrSourceDescList := [] |} = 3
  /\ ErrSourceDescSize
       {| ErrSourceDescCount := 3; ErrSourceDescSize := 48;
          ErrSourceDescList := [] |} = 48.
Proof.
  split; [reflexivity|].
  apply (probe_totals_in_reply three (fresh 16)
           {| ErrSourceDescCount := 3; ErrSourceDescSize := 48;
              ErrSourceDescList := [] |} 16 EFI_BUFFER_TOO_SMALL).
  - discriminate.
  - discriminate.
  - reflexivity.
Defined.

(** C6 as it is stated fails: two handles that declare [2 ^ 63] bytes
    each leave a size of zero in the reply, which is not the sum of the
    two lengths. *)
Lemma probe_total_wraps :
  exists Status out,
    HestErrorSourcesInfoMmiHandler huge true (fresh 16) 16
    = Some (Status, out)
    /\ ErrSourceDescSize out = 0
    /\ declared_Length huge = 2 ^ 64
    /\ ErrSourceDescSize out <> declared_Length huge.
Proof.
  do 2 eexists. split; [vm_compute; reflexivity|].
  split; [reflexivity|]. split; [reflexivity|]. discriminate.
Qed.

(** The three drivers of the specification: the 16 bytes of the first
    are at offset 0, the 32 bytes of the second at offset 16, and the
    list holds nothing else. *)
Lemma fill_places_at_cursor_witness :
  exists Status out,
    HestErrorSourcesInfoMmiHandler three true (fresh 64) 64
    = Some (Status, out)
    /\ ReadMem (ErrSourceDescList out) 0 16 = Some (repeat x11 16)
    /\ ReadMem (ErrSourceDescList out) 16 32 = Some (repeat x22 32)
    /\ ErrSourceDescList out = repeat x11 16 ++ repeat x22 32.
Proof.
  destruct (HestErrorSourcesInfoMmiHandler three true (fresh 64) 64)
    as [[Status out]|] eqn:H; [|vm_compute in H; discriminate H].
  exists Status, out. split; [reflexivity|]. split; [|split].
  - apply (fill_places_at_cursor []
             [producer 2 (repeat x22 32); producer 0 []]
             (producer 1 (repeat x11 16)) (fresh 64) out 64 Status).
    + discriminate.
    + discriminate.
    + exact H.
    + reflexivity.
    + reflexivity.
  - apply (fill_places_at_cursor [producer 1 (repeat x11 16)]
             [producer 0 []] (producer 2 (repeat x22 32)) (fresh 64) out
             64 Status).
    + discriminate.
    + discriminate.
    + exact H.
    + reflexivity.
    + reflexivity.
  - vm_compute in H. injection H as _ <-. reflexivity.
Defined.

Lemma ninety_six_never_too_small : Forall never_too_small ninety_six.
Proof.
  repeat constructor; try discriminate; intros cursor; discriminate.
Qed.

(** Totals of three descriptors in 96 bytes: a buffer of the two fields
    and 96 bytes is filled, one of the two fields and 95 bytes is too
    small. *)
Lemma too_small_iff_below_total_witness :
  (exists out,
     HestErrorSourcesInfoMmiHandler ninety_six true (fresh (16 + 96))
       (16 + 96) = Some (EFI_SUCCESS, out)
     /\ (EFI_SUCCESS = EFI_BUFFER_TOO_SMALL <-> 16 + 96 < 16 + 96))
  /\ (exists out,
        HestErrorSourcesInfoMmiHandler ninety_six true (fresh (16 + 95))
          (16 + 95) = Some (EFI_BUFFER_TOO_SMALL, out)
        /\ (EFI_BUFFER_TOO_SMALL = EFI_BUFFER_TOO_SMALL
            <-> 16 + 95 < 16 + 96)).
Proof.
  split.
  - destruct (HestErrorSourcesInfoMmiHandler ninety_six true
                (fresh (16 + 96)) (16 + 96)) as [[Status out]|] eqn:H;
      [|vm_compute in H; discriminate H].
    assert (E : Status = EFI_SUCCESS)
      by (vm_compute in H; now injection H as <- _).
    subst Status. exists out. split; [reflexivity|].
    apply (too_small_iff_below_total ninety_six (fresh (16 + 96)) out
             (16 + 96) EFI_SUCCESS).
    + discriminate.
    + exact ninety_six_never_too_small.
    + exact H.
  - exists {| ErrSourceDescCount := 3; ErrSourceDescSize := 96;
              ErrSourceDescList := repeat xaf 95 |}.
    split; [reflexivity|].
    apply (too_small_iff_below_total ninety_six (fresh (16 + 95))
             {| ErrSourceDescCount := 3; ErrSourceDescSize := 96;
                ErrSourceDescList := repeat xaf 95 |}
             (16 + 95) EFI_BUFFER_TOO_SMALL).
    + discriminate.
    + exact ninety_six_never_too_small.
    + reflexivity.
Defined.

(** C8 as it is stated fails: a buffer of 8 bytes is below the size of
    the two fields plus the total length, and the handler returns
    [EFI_INVALID_PARAMETER], not [EFI_BUFFER_TOO_SMALL]. *)
Lemma too_small_buffer_is_invalid :
  HestErrorSourcesInfoMmiHandler ninety_six true (fresh 8) 8
  = Some (EFI_INVALID_PARAMETER, fresh 8)
  /\ 8 < HEST_ERROR_SOURCE_DESC_INFO_SIZE + declared_Length ninety_six
  /\ EFI_INVALID_PARAMETER <> EFI_BUFFER_TOO_SMALL.
Proof. split; [reflexivity|]. split; [reflexivity|discriminate]. Qed.

(** C4 (the code departs from it).  Of two drivers the first stores its
    bytes and the second fails once it is given a buffer: the bytes of
    the first are in the reply and the totals stand, but the handler
    returns the status of the second, an error.  With the same two
    drivers the other way round it returns [EFI_SUCCESS]. *)
Theorem last_handle_decides_status :
  HestErrorSourcesInfoMmiHandler failing_last true (fresh 20) 20
  = Some (EFI_DEVICE_ERROR,
          {| ErrSourceDescCount := 2; ErrSourceDescSize := 4;
             ErrSourceDescList := [x01; x02; xaf; xaf] |})
  /\ EFI_ERROR EFI_DEVICE_ERROR = true
  /\ HestErrorSourcesInfoMmiHandler failing_first true (fresh 20) 20
     = Some (EFI_SUCCESS,
             {| ErrSourceDescCount := 2; ErrSourceDescSize := 4;
                ErrSourceDescList := [x01; x02; xaf; xaf] |}).
Proof. repeat split. Qed.

End GatewayRuns.

(** ** HestErrorSourceDxe.c *)

Section ClientFacts.
Import Base Mem StandaloneMm ErrorSourceDxe.

(** The address of the descriptor list in a buffer that lies in the
    address space with the two headers and at least one more byte is not
    null. *)
Lemma ErrSourceDescList_address_nonnull (CommunicationHeader Size : N) :
  Size <> 0 ->
  CommunicationHeader + MM_COMMUNICATE_HEADER_SIZE
  + HEST_ERROR_SOURCE_DESC_INFO_SIZE + Size <= 2 ^ 64 ->
  ErrSourceDescList_address CommunicationHeader <> 0.
Proof.
  intros Z B. unfold ErrSourceDescList_address.
  rewrite UINTN_small by lia.
  unfold MM_COMMUNICATE_HEADER_SIZE, HEST_ERROR_SOURCE_DESC_INFO_SIZE. lia.
Qed.

(** C10.  When both allocations succeed, the first call is not taken for
    a failure and declares a count and a size that are not zero, the
    second buffer lies in the address space with its headers and the
    declared bytes, and the second call succeeds, then
    [AppendMmErrorSources] ends by calling the append service of the HEST
    table protocol with the list, size and count of the second reply:
    the test of the list against [NULL] is never taken. *)
Theorem second_reply_reaches_append (svc : Services)
    (Status1 Status2 : EFI_STATUS)
    (Info1 Info2 : HEST_ERROR_SOURCE_DESC_INFO) :
  AllocatePool_first svc
    (UINTN (MM_COMMUNICATE_HEADER_SIZE + HEST_ERROR_SOURCE_DESC_INFO_SIZE))
  <> 0 ->
  GetErrorSourceDescriptors (Communicate_first svc)
    (UINTN (MM_COMMUNICATE_HEADER_SIZE + HEST_ERROR_SOURCE_DESC_INFO_SIZE))
  = Some (Status1, Info1) ->
  EFI_ERROR Status1 = false \/ Status1 = EFI_BAD_BUFFER_SIZE ->
  ErrSourceDescSize Info1 <> 0 ->
  ErrSourceDescCount Info1 <> 0 ->
  AllocatePool_second svc
    (UINTN (MM_COMMUNICATE_HEADER_SIZE + HEST_ERROR_SOURCE_DESC_INFO_SIZE
            + ErrSourceDescSize Info1)) <> 0 ->
  AllocatePool_second svc
    (UINTN (MM_COMMUNICATE_HEADER_SIZE + HEST_ERROR_SOURCE_DESC_INFO_SIZE
            + ErrSourceDescSize Info1))
  + MM_COMMUNICATE_HEADER_SIZE + HEST_ERROR_SOURCE_DESC_INFO_SIZE
  + ErrSourceDescSize Info1 <= 2 ^ 64 ->
  GetErrorSourceDescriptors (Communicate_second svc)
    (UINTN (MM_COMMUNICATE_HEADER_SIZE + HEST_ERROR_SOURCE_DESC_INFO_SIZE
            + ErrSourceDescSize Info1))
  = Some (Status2, Info2) ->
  EFI_ERROR Status2 = false ->
  AppendMmErrorSources_steps svc
  = Some (ReturnAppend (Some (ErrSourceDescList Info2))
            (ErrSourceDescSize Info2) (ErrSourceDescCount Info2)).
Proof.
  intros A1 C1 S1 Z1 K1 A2 V2 C2 S2.
  unfold AppendMmErrorSources_steps.
  apply N.eqb_neq in A1. rewrite A1, C1. cbn [Mem.bind].
  assert (T : EFI_ERROR Status1 && negb (Status1 =? EFI_BAD_BUFFER_SIZE)
              = false).
  { destruct S1 as [-> | ->]; [reflexivity|].
    now rewrite N.eqb_refl, andb_false_r. }
  rewrite T.
  apply N.eqb_neq in Z1, K1. rewrite Z1, K1. cbn [orb].
  apply N.eqb_neq in A2. rewrite A2, C2. cbn [Mem.bind]. rewrite S2.
  pose proof (ErrSourceDescList_address_nonnull _ _
                (proj1 (N.eqb_neq _ _) Z1) V2) as NN.
  apply N.eqb_neq in NN. now rewrite NN.
Qed.

(** Whatever the services, a first call that comes back with
    [EFI_BUFFER_TOO_SMALL] ends [AppendMmErrorSources] with that status;
    the status the driver lets pass is [EFI_BAD_BUFFER_SIZE]. *)
Lemma first_call_too_small (svc : Services)
    (Info : HEST_ERROR_SOURCE_DESC_INFO) :
  AllocatePool_first svc
    (UINTN (MM_COMMUNICATE_HEADER_SIZE + HEST_ERROR_SOURCE_DESC_INFO_SIZE))
  <> 0 ->
  GetErrorSourceDescriptors (Communicate_first svc)
    (UINTN (MM_COMMUNICATE_HEADER_SIZE + HEST_ERROR_SOURCE_DESC_INFO_SIZE))
  = Some (EFI_BUFFER_TOO_SMALL, Info) ->
  AppendMmErrorSources_steps svc = Some (Return EFI_BUFFER_TOO_SMALL).
Proof.
  intros A1 C1. unfold AppendMmErrorSources_steps.
  apply N.eqb_neq in A1. now rewrite A1, C1.
Qed.

End ClientFacts.

Section ClientRuns.
Import Base Mem StandaloneMm ErrorSourceDxe MmScenario.

(** The services of [MmScenario.services] with a channel that reports a
    buffer that is too small as [EFI_BAD_BUFFER_SIZE]: the three drivers
    of the specification reach the append service with 48 bytes and a
    count of three. *)
Lemma second_reply_reaches_append_witness :
  AppendMmErrorSources_steps
    {| AllocatePool_first := fun _ => 0x80000000;
       Communicate_first := fun n =>
         option_map
           (fun r => (if fst r =? EFI_BUFFER_TOO_SMALL
                      then EFI_BAD_BUFFER_SIZE else fst r, snd r))
           (Channel three true fresh n);
       AllocatePool_second := fun _ => 0x80001000;
       Communicate_second := Channel three true fresh |}
  = Some (ReturnAppend (Some (repeat x11 16 ++ repeat x22 32)) 48 3).
Proof.
  apply (second_reply_reaches_append _ EFI_BAD_BUFFER_SIZE EFI_SUCCESS
           {| ErrSourceDescCount := 3; ErrSourceDescSize := 48;
              ErrSourceDescList := [] |}
           {| ErrSourceDescCount := 3; ErrSourceDescSize := 48;
              ErrSourceDescList := repeat x11 16 ++ repeat x22 32 |}).
  - discriminate.
  - reflexivity.
  - right. reflexivity.
  - discriminate.
  - discriminate.
  - discriminate.
  - discriminate.
  - reflexivity.
  - reflexivity.
Defined.

(** C5 (the code departs from it).  Over a channel that returns the
    status of the handler, the first call of the three drivers of the
    specification comes back with the handler's [EFI_BUFFER_TOO_SMALL]
    and the totals, and [AppendMmErrorSources] returns that status
    without a second call; the status it lets pass instead,
    [EFI_BAD_BUFFER_SIZE], is a different one. *)
Theorem too_small_reaches_caller :
  GetErrorSourceDescriptors (Communicate_first (services three))
    (UINTN (MM_COMMUNICATE_HEADER_SIZE + HEST_ERROR_SOURCE_DESC_INFO_SIZE))
  = Some (EFI_BUFFER_TOO_SMALL,
          {| ErrSourceDescCount := 3; ErrSourceDescSize := 48;
             ErrSourceDescList := [] |})
  /\ AppendMmErrorSources_steps (services three)
     = Some (Return EFI_BUFFER_TOO_SMALL)
  /\ EFI_BAD_BUFFER_SIZE <> EFI_BUFFER_TOO_SMALL.
Proof. split; [reflexivity|]. split; [reflexivity|discriminate]. Qed.

End ClientRuns.

Section ChecksumFacts.
Import Base Mem HestDxe.

Lemma CalculateSum8_fold (bs : list byte) (acc : N) :
  fold_left (fun acc b => UINT8 (acc + Byte.to_N b)) bs (UINT8 acc)
  = UINT8 (acc + byte_sum bs).
Proof.
  revert acc. induction bs as [|b t IH]; intros acc;
    cbn [fold_left byte_sum fold_right].
  - now rewrite N.add_0_r.
  - fold (byte_sum t).
    replace (UINT8 (UINT8 acc + Byte.to_N b)) with (UINT8 (acc + Byte.to_N b))
      by (unfold UINT8; now rewrite N.Div0.add_mod_idemp_l).
    rewrite IH. f_equal. lia.
Qed.

Lemma CalculateSum8_byte_sum (bs : list byte) :
  CalculateSum8 bs = UINT8 (byte_sum bs).
Proof.
  unfold CalculateSum8. change 0 with (UINT8 0) at 1.
  now rewrite CalculateSum8_fold.
Qed.

Lemma byte_sum_app (a b : list byte) :
  byte_sum (a ++ b) = byte_sum a + byte_sum b.
Proof.
  induction a as [|x a IH]; cbn [app byte_sum fold_right]; [reflexivity|].
  fold (byte_sum (a ++ b)) (byte_sum a). rewrite IH. lia.
Qed.

Lemma Read8_inv (buf : list byte) (off v : N) :
  Read8 buf off = Some v ->
  exists a b0 c,
    buf = a ++ b0 :: c /\ len a = off /\ Byte.to_N b0 = v
    /\ off + 1 <= len buf.
Proof.
  unfold Read8, ReadMem. change (1 =? 0) with false. cbv iota.
  destruct (off + 1 <=? len buf) eqn:B; [|discriminate].
  apply N.leb_le in B. unfold len in B.
  pose proof (firstn_skipn (N.to_nat off) buf) as E.
  remember (skipn (N.to_nat off) buf) as tl eqn:K.
  destruct tl as [|b0 c].
  - apply (f_equal (@length byte)) in K.
    rewrite length_skipn in K. cbn [length] in K. lia.
  - change (N.to_nat 1) with 1%nat. cbn [firstn option_map le_value].
    intros [= V]. exists (firstn (N.to_nat off) buf), b0, c.
    split; [now symmetry|]. split; [|split; [lia|exact B]].
    unfold len. rewrite length_firstn. lia.
Qed.

(** The table [InstallHestAcpiTable] hands to [InstallAcpiTable], when
    the length field is the size of the table: its bytes sum to the two's
    complement of the byte that lay in the checksum field before, so to
    zero exactly when that byte was zero. *)
Lemma Install_published_sum (InstallAcpiTable : list byte -> N -> EFI_STATUS)
    (d : HEST_DXE_DRIVER_DATA) (buf : list byte) (stale : N) :
  HestTable d = Live buf ->
  Read32 buf offset_Length = Some (len buf) ->
  Read8 buf offset_Checksum = Some stale ->
  exists r table,
    InstallHestAcpiTable InstallAcpiTable d = Some r
    /\ install_published r = Some (table, len buf)
    /\ CalculateSum8 table = UINT8 (0x100 - stale).
Proof.
  intros HT HL HC. unfold InstallHestAcpiTable. rewrite HT, HL.
  cbn [Mem.bind]. rewrite ReadMem_all. cbn [Mem.bind].
  destruct (Read8_inv _ _ _ HC) as (a & b0 & c & E & La & Hb & B).
  unfold offset_Checksum in La, B. subst buf.
  assert (La' : length a = 9%nat) by (unfold len in La; lia).
  clear La. rename La' into La.
  set (sum := CalculateCheckSum8 (a ++ b0 :: c)).
  assert (W : Write8 (a ++ b0 :: c) offset_Checksum sum
              = Some (a ++ byte_of_N sum :: c)).
  { unfold Write8, CopyMem, offset_Checksum. cbn [le_bytes].
    change (len [byte_of_N sum] =? 0) with false. cbv iota.
    change (len [byte_of_N sum]) with 1.
    rewrite (proj2 (N.leb_le _ _) B).
    change (N.to_nat 9) with 9%nat. change (N.to_nat (9 + 1)) with 10%nat.
    rewrite firstn_app, La, Nat.sub_diag, firstn_O, app_nil_r.
    rewrite <- La, firstn_all. rewrite La.
    rewrite skipn_app, La. rewrite skipn_all2 by lia.
    reflexivity. }
  rewrite W. cbn [Mem.bind].
  assert (HL' : Read32 (a ++ byte_of_N sum :: c) offset_Length
                = Some (len (a ++ b0 :: c))).
  { rewrite <- HL. unfold Read32.
    rewrite (ReadMem_CopyMem_before _ _ _ _ _ _ W); [reflexivity|].
    unfold offset_Length, offset_Checksum. lia. }
  rewrite HL'. cbn [Mem.bind].
  assert (Sum : CalculateSum8 (a ++ byte_of_N sum :: c)
                = UINT8 (0x100 - stale)).
  { rewrite CalculateSum8_byte_sum, byte_sum_app.
    cbn [byte_sum fold_right]. fold (byte_sum c).
    rewrite byte_of_N_value. unfold sum, CalculateCheckSum8.
    rewrite CalculateSum8_byte_sum, byte_sum_app.
    cbn [byte_sum fold_right]. fold (byte_sum c). rewrite Hb.
    unfold UINT8. change (2 ^ 8) with 256.
    rewrite N.Div0.mod_mod.
    pose proof (Byte.to_N_bounded b0) as Bb. rewrite Hb in Bb.
    remember (byte_sum a) as x. remember (byte_sum c) as y.
    pose proof (N.mod_upper_bound (x + (stale + y)) 256 ltac:(discriminate))
      as U.
    remember ((x + (stale + y)) mod 256) as m.
    (* x + y + 256 - m is congruent to 256 - stale *)
    assert (E : x + (stale + y) = 256 * ((x + (stale + y)) / 256) + m)
      by (subst m; apply N.div_mod'; discriminate).
    remember ((x + (stale + y)) / 256) as q.
    replace (x + ((256 - m) mod 256 + y))
      with ((256 - m) mod 256 + (x + y)) by lia.
    rewrite N.Div0.add_mod_idemp_l.
    replace (256 - m + (x + y)) with (256 - stale + q * 256) by lia.
    now rewrite N.Div0.mod_add. }
  destruct (EFI_ERROR _); do 2 eexists;
    (split; [reflexivity|split; [reflexivity|exact Sum]]).
Qed.

End ChecksumFacts.

Section AggregatorDefects.
Import Base Mem HestDxe.

(** C2 (the code departs from it).  A first call builds a table of 41
    bytes; a second call for which the pool refuses the growth returns
    [EFI_OUT_OF_RESOURCES] and leaves driver data whose table pointer is
    [NULL]: the table of the first call is no longer reachable. *)
Theorem refused_growth_drops_table :
  AppendErrorSourceDescriptor Scenario.pcd Scenario.plentiful
    (Some [x01]) 1 1 mHestDriverData_initial
  = Some (EFI_SUCCESS, Scenario.one_byte_table)
  /\ (exists buf, HestTable Scenario.one_byte_table = Live buf
                  /\ len buf = 41)
  /\ CurrentTableSize Scenario.one_byte_table = 41
  /\ AppendErrorSourceDescriptor Scenario.pcd Scenario.exhausted
       (Some [x02]) 1 1 Scenario.one_byte_table
     = Some (EFI_OUT_OF_RESOURCES,
             {| HestTable := NULL; CurrentTableSize := 41 |}).
Proof.
  split; [vm_compute; reflexivity|].
  split; [eexists; split; [vm_compute; reflexivity|reflexivity]|].
  split; reflexivity.
Qed.

(** C3 (the code departs from it).  With a stack slot that holds 1 where
    the checksum field lies, the table installed after one call of the
    append service sums to 255, not to zero.  With a slot of zeros, an
    installation that the ACPI table protocol refuses leaves a table that
    sums to zero, and the installation tried again publishes one that
    does not. *)
Theorem published_table_sum :
  (exists d r table,
     AppendErrorSourceDescriptor Scenario.pcd Scenario.stale
       (Some [x00]) 1 1 mHestDriverData_initial = Some (EFI_SUCCESS, d)
     /\ InstallHestAcpiTable (fun _ _ => EFI_SUCCESS) d = Some r
     /\ install_status r = EFI_SUCCESS
     /\ install_published r = Some (table, 41)
     /\ CalculateSum8 table = 255)
  /\ (exists d r1 t1 r2 t2,
       AppendErrorSourceDescriptor Scenario.pcd Scenario.plentiful
         (Some [x00]) 1 1 mHestDriverData_initial = Some (EFI_SUCCESS, d)
       /\ InstallHestAcpiTable (fun _ _ => EFI_OUT_OF_RESOURCES) d
          = Some r1
       /\ install_status r1 = EFI_OUT_OF_RESOURCES
       /\ install_published r1 = Some (t1, 41)
       /\ CalculateSum8 t1 = 0
       /\ InstallHestAcpiTable (fun _ _ => EFI_SUCCESS) (install_data r1)
          = Some r2
       /\ install_status r2 = EFI_SUCCESS
       /\ install_published r2 = Some (t2, 41)
       /\ CalculateSum8 t2 <> 0).
Proof.
  split.
  - do 3 eexists. split; [vm_compute; reflexivity|].
    split; [vm_compute; reflexivity|].
    split; [reflexivity|]. split; reflexivity.
  - do 5 eexists. split; [vm_compute; reflexivity|].
    split; [vm_compute; reflexivity|].
    split; [reflexivity|]. split; [reflexivity|].
    split; [reflexivity|].
    split; [vm_compute; reflexivity|].
    split; [reflexivity|]. split; [reflexivity|].
    vm_compute. discriminate.
Qed.

End AggregatorDefects.

(** * Further properties of the drivers *)

(** ** Reads across copies *)

Section ReadFacts.
Import Base Mem.

Lemma firstn_plus (l : list byte) (n m : nat) :
  firstn (n + m) l = firstn n l ++ firstn m (skipn n l).
Proof.
  revert l. induction n as [|n IH]; intros l; [reflexivity|].
  destruct l as [|x l]; cbn [Nat.add firstn skipn app].
  - now rewrite firstn_nil.
  - now rewrite IH.
Qed.

(** Two reads that touch make one read. *)
Lemma ReadMem_join (buf x y : list byte) (off n m : N) :
  ReadMem buf off n = Some x -> ReadMem buf (off + n) m = Some y ->
  ReadMem buf off (n + m) = Some (x ++ y).
Proof.
  unfold ReadMem.
  destruct (n =? 0) eqn:Zn.
  - apply N.eqb_eq in Zn. subst n. intros [= <-].
    now rewrite N.add_0_r, N.add_0_l.
  - destruct (off + n <=? len buf) eqn:Bn; [|discriminate]. intros [= <-].
    destruct (m =? 0) eqn:Zm.
    + apply N.eqb_eq in Zm. subst m. intros [= <-].
      now rewrite N.add_0_r, Zn, Bn, app_nil_r.
    + destruct (off + n + m <=? len buf) eqn:Bm; [|discriminate].
      intros [= <-].
      apply N.eqb_neq in Zn.
      destruct (n + m =? 0) eqn:Z; [apply N.eqb_eq in Z; lia|].
      rewrite N.add_assoc, Bm. f_equal.
      rewrite !Nnat.N2Nat.inj_add, firstn_plus, skipn_skipn.
      do 3 f_equal. lia.
Qed.

(** The read of the middle of three pieces. *)
Lemma ReadMem_mid (a b c : list byte) :
  ReadMem (a ++ b ++ c) (len a) (len b) = Some b.
Proof.
  unfold ReadMem, len.
  destruct (N.of_nat (length b) =? 0) eqn:Z.
  - apply N.eqb_eq in Z. destruct b; [reflexivity|cbn in Z; lia].
  - rewrite !length_app.
    destruct (_ <=? _) eqn:B; [|apply N.leb_gt in B; lia].
    rewrite !Nnat.Nat2N.id. f_equal.
    rewrite skipn_app, skipn_all, Nat.sub_diag. cbn [skipn app].
    now rewrite firstn_app, firstn_all, Nat.sub_diag, firstn_O, app_nil_r.
Qed.

Lemma ReadMem_from_0 (l x : list byte) (n : N) :
  ReadMem l 0 n = Some x -> x = firstn (N.to_nat n) l.
Proof.
  unfold ReadMem. destruct (n =? 0) eqn:Z.
  - apply N.eqb_eq in Z. subst n. now intros [= <-].
  - destruct (0 + n <=? len l); [|discriminate]. now intros [= <-].
Qed.

(** A copy that has room is made. *)
Lemma CopyMem_fits (buf src : list byte) (off : N) :
  off + len src <= len buf -> exists out, CopyMem buf off src = Some out.
Proof.
  intros B. unfold CopyMem. destruct (len src =? 0); [eauto|].
  apply N.leb_le in B. rewrite B. eauto.
Qed.

End ReadFacts.

(** ** HestDxe.c: the contents of the table *)

Section TableFacts.
Import Base Mem HestDxe Wire.
Variable pcd : Pcd.

(** The bytes of the header outside its length and checksum. *)
Lemma header_bytes_reads
    (h : EFI_ACPI_6_3_HARDWARE_ERROR_SOURCE_TABLE_HEADER) :
  Read32 (header_bytes h) 0 = Some (UINT32 (Signature (Header h)))
  /\ Read8 (header_bytes h) 8 = Some (UINT8 (Revision (Header h)))
  /\ ReadMem (header_bytes h) 10 26
     = Some (fit 6 (OemId (Header h))
             ++ le_bytes 8 (OemTableId (Header h))
             ++ le_bytes 4 (OemRevision (Header h))
             ++ le_bytes 4 (CreatorId (Header h))
             ++ le_bytes 4 (CreatorRevision (Header h))).
Proof.
  assert (F : length (fit 6 (OemId (Header h))) = 6%nat).
  { unfold fit. rewrite length_firstn, length_app, repeat_length.
    rewrite Nat.min_l by lia. reflexivity. }
  split; [|split].
  - unfold Read32, header_bytes.
    rewrite ReadMem_app_l by (now rewrite len_le_bytes).
    change 4 with (len (le_bytes 4 (Signature (Header h)))) at 1.
    rewrite ReadMem_all. cbn [option_map]. now rewrite le_value_le_bytes.
  - unfold Read8, header_bytes.
    rewrite (app_assoc (le_bytes 4 _) (le_bytes 4 _)).
    set (a := le_bytes 4 (Signature (Header h))
              ++ le_bytes 4 (Length (Header h))).
    assert (La : len a = 8)
      by (unfold a; now rewrite len_app, !len_le_bytes).
    rewrite <- La.
    change 1 with (len (le_bytes 1 (Revision (Header h)))).
    rewrite ReadMem_mid. cbn [option_map]. now rewrite le_value_le_bytes.
  - unfold header_bytes.
    set (o := fit 6 (OemId (Header h))).
    set (t := le_bytes 8 (OemTableId (Header h))).
    set (r := le_bytes 4 (OemRevision (Header h))).
    set (ci := le_bytes 4 (CreatorId (Header h))).
    set (cr := le_bytes 4 (CreatorRevision (Header h))).
    set (a := le_bytes 4 (Signature (Header h))
              ++ le_bytes 4 (Length (Header h))
              ++ le_bytes 1 (Revision (Header h))
              ++ le_bytes 1 (Checksum (Header h))).
    set (b := o ++ t ++ r ++ ci ++ cr).
    replace (le_bytes 4 (Signature (Header h))
             ++ le_bytes 4 (Length (Header h))
             ++ le_bytes 1 (Revision (Header h))
             ++ le_bytes 1 (Checksum (Header h))
             ++ o ++ t ++ r ++ ci ++ cr ++ le_bytes 4 (ErrorSourceCount h))
      with (a ++ b ++ le_bytes 4 (ErrorSourceCount h))
      by (unfold a, b; now rewrite <- !app_assoc).
    assert (La : len a = 10)
      by (unfold a; now rewrite !len_app, !len_le_bytes).
    assert (Lb : len b = 26).
    { unfold b, o, t, r, ci, cr. rewrite !len_app, !len_le_bytes.
      unfold len. now rewrite F. }
    rewrite <- La, <- Lb. apply ReadMem_mid.
Qed.

(** [BuildHestHeader] with memory to be had: the table is the header the
    function composed. *)
Lemma BuildHestHeader_built (env : CallEnv) (d : HEST_DXE_DRIVER_DATA) :
  header_granted env = true ->
  exists buf,
    BuildHestHeader pcd env d
    = Some (EFI_SUCCESS,
            {| HestTable := Live buf;
               CurrentTableSize := sizeof_HEST_TABLE_HEADER |})
    /\ table_built pcd buf 0 0 [].
Proof.
  intros G. unfold BuildHestHeader, ReallocateHestTableMemory,
    ReallocateReservedPool. rewrite G. cbn [negb Mem.bind].
  match goal with |- context [header_bytes ?h] => set (H := h) end.
  exists (header_bytes H).
  assert (L : len (header_bytes H) = 40)
    by (unfold len; now rewrite header_bytes_length).
  split.
  - unfold CopyMem. rewrite L. cbn [N.eqb].
    change (0 + 40 <=? len (ZeroMem sizeof_HEST_TABLE_HEADER)) with true.
    cbn iota. cbn [Mem.bind]. do 3 f_equal.
    change (skipn (N.to_nat (0 + 40)) (ZeroMem sizeof_HEST_TABLE_HEADER))
      with (@nil byte).
    cbn [firstn N.to_nat app]. now rewrite app_nil_r.
  - destruct (header_bytes_reads H) as (S & R & P).
    unfold table_built. repeat split; try assumption.
    + rewrite Read32_header_count. reflexivity.
Qed.

End TableFacts.

Section AppendFacts.
Import Base Mem HestDxe Wire.
Variable pcd : Pcd.

(** A successful call on an existing table, step by step: the table
    grown by zeros, the descriptors copied behind the old bytes, the
    length field and the count field stored. *)
Lemma Append_Live_shape (env : CallEnv) (l buf : list byte)
    (Size Count : N) (d d' : HEST_DXE_DRIVER_DATA) :
  HestTable d = Live buf -> CurrentTableSize d = len buf ->
  AppendErrorSourceDescriptor pcd env (Some l) Size Count d
  = Some (EFI_SUCCESS, d') ->
  exists src b2 b3 b4 count,
    ReadMem l 0 Size = Some src /\ Size <> 0
    /\ len buf + Size < 2 ^ 32
    /\ CopyMem (buf ++ ZeroMem Size) (len buf) src = Some b2
    /\ Write32 b2 offset_Length (len buf + Size) = Some b3
    /\ Read32 b3 offset_ErrorSourceCount = Some count
    /\ Write32 b3 offset_ErrorSourceCount (UINT32 (count + Count))
       = Some b4
    /\ d' = {| HestTable := Live b4; CurrentTableSize := len buf + Size |}.
Proof.
  intros HT HS A. unfold AppendErrorSourceDescriptor in A.
  destruct (Size =? 0) eqn:Z; [discriminate A|].
  apply N.eqb_neq in Z.
  rewrite HT in A. cbn [Mem.bind] in A.
  change (EFI_SUCCESS =? EFI_OUT_OF_RESOURCES) with false in A.
  cbv iota in A.
  unfold ReallocateHestTableMemory, ReallocateReservedPool in A.
  destruct (growth_granted env); cbn [negb Mem.bind] in A;
    [|discriminate A].
  rewrite !UINT32_UINTN, HS, HT in A.
  set (Cur := len buf) in *. set (New := UINT32 (Cur + Size)) in *.
  assert (NewB : New < 2 ^ 32) by (apply N.mod_upper_bound; discriminate).
  apply bind_Some in A as (p & K & A).
  apply bind_Some in K as (kept & K & E). injection E as <-.
  pose proof (ReadMem_len _ _ _ _ K) as LK.
  apply bind_Some in A as (src & R & A).
  pose proof (ReadMem_len _ _ _ _ R) as LS.
  apply bind_Some in A as (b2 & C2 & A).
  assert (Fit : Cur + Size <= New).
  { revert C2. unfold CopyMem. rewrite LS.
    destruct (Size =? 0) eqn:Z'; [apply N.eqb_eq in Z'; lia|].
    destruct (Cur + Size <=? len (kept ++ ZeroMem (New - N.min Cur New)))
      eqn:F; [|discriminate].
    intros _. apply N.leb_le in F.
    rewrite len_app, len_ZeroMem, LK in F. lia. }
  assert (NoWrap : New = Cur + Size).
  { pose proof (N.Div0.mod_le (Cur + Size) (2 ^ 32)).
    unfold New, UINT32 in *. lia. }
  assert (Kept : kept = buf).
  { rewrite N.min_l in K by lia. unfold Cur in K.
    rewrite ReadMem_all in K. now injection K. }
  subst kept.
  replace (New - N.min Cur New) with Size in C2 by lia.
  apply bind_Some in A as (b3 & W3 & A).
  apply bind_Some in A as (count & RC & A).
  apply bind_Some in A as (b4 & W4 & A).
  injection A as <-.
  exists src, b2, b3, b4, count. rewrite <- NoWrap.
  repeat split; try assumption.
  now rewrite <- UINT32_UINTN.
Qed.

(** What a successful call on an existing table of at least the header
    leaves of it: the size, the old bytes outside the two fields it
    stores, the new bytes behind them, and the two fields. *)
Lemma Append_Live_reads (env : CallEnv) (l buf : list byte)
    (Size Count count : N) (d d' : HEST_DXE_DRIVER_DATA) :
  HestTable d = Live buf -> CurrentTableSize d = len buf ->
  sizeof_HEST_TABLE_HEADER <= len buf ->
  Read32 buf offset_ErrorSourceCount = Some count ->
  AppendErrorSourceDescriptor pcd env (Some l) Size Count d
  = Some (EFI_SUCCESS, d') ->
  exists buf',
    d' = {| HestTable := Live buf'; CurrentTableSize := len buf + Size |}
    /\ len buf' = len buf + Size
    /\ (forall off n,
          off + n <= len buf ->
          off + n <= 4 \/ (8 <= off /\ off + n <= 36) \/ 40 <= off ->
          ReadMem buf' off n = ReadMem buf off n)
    /\ ReadMem buf' (len buf) Size = Some (firstn (N.to_nat Size) l)
    /\ Read32 buf' offset_Length = Some (len buf + Size)
    /\ Read32 buf' offset_ErrorSourceCount = Some (UINT32 (count + Count)).
Proof.
  intros HT HS H40 HC A.
  destruct (Append_Live_shape _ _ _ _ _ _ _ HT HS A)
    as (src & b2 & b3 & b4 & count' & R & Z & NW & C2 & W3 & RC & W4 & ->).
  unfold sizeof_HEST_TABLE_HEADER, offset_Length, offset_ErrorSourceCount
    in *.
  pose proof (ReadMem_len _ _ _ _ R) as LS.
  pose proof (ReadMem_from_0 _ _ _ R) as ES.
  assert (Old : forall off n,
             off + n <= len buf ->
             ReadMem b2 off n = ReadMem buf off n).
  { intros off n B.
    rewrite (ReadMem_CopyMem_before _ _ _ _ _ _ C2) by lia.
    now apply ReadMem_app_l. }
  assert (E : count' = count).
  { rewrite (Read32_Write32_other _ _ _ _ _ W3) in RC by (right; lia).
    unfold Read32 in RC, HC. rewrite Old in RC by lia.
    rewrite HC in RC. now injection RC. }
  subst count'.
  exists b4. split; [reflexivity|]. split; [|split; [|split; [|split]]].
  - rewrite (CopyMem_len _ _ _ _ W4), (CopyMem_len _ _ _ _ W3),
      (CopyMem_len _ _ _ _ C2), len_app, len_ZeroMem. reflexivity.
  - intros off n B [P | [[P1 P2] | P]].
    + rewrite (ReadMem_CopyMem_before _ _ _ _ _ _ W4) by lia.
      rewrite (ReadMem_CopyMem_before _ _ _ _ _ _ W3) by lia.
      now apply Old.
    + rewrite (ReadMem_CopyMem_before _ _ _ _ _ _ W4) by lia.
      rewrite (ReadMem_CopyMem_after _ _ _ _ _ _ W3)
        by (rewrite len_le_bytes; lia).
      now apply Old.
    + rewrite (ReadMem_CopyMem_after _ _ _ _ _ _ W4)
        by (rewrite len_le_bytes; lia).
      rewrite (ReadMem_CopyMem_after _ _ _ _ _ _ W3)
        by (rewrite len_le_bytes; lia).
      now apply Old.
  - rewrite (ReadMem_CopyMem_after _ _ _ _ _ _ W4)
      by (rewrite len_le_bytes; lia).
    rewrite (ReadMem_CopyMem_after _ _ _ _ _ _ W3)
      by (rewrite len_le_bytes; lia).
    rewrite <- ES, <- LS. now apply (ReadMem_CopyMem_same _ _ _ _ C2).
  - rewrite (Read32_Write32_other _ _ _ _ _ W4) by (left; lia).
    rewrite (Read32_Write32_same _ _ _ _ W3).
    now rewrite UINT32_small by lia.
  - rewrite (Read32_Write32_same _ _ _ _ W4). now rewrite UINT32_idem.
Qed.

(** One successful call on an existing table keeps what was built and
    appended and adds its own. *)
Lemma Append_wire_Live (env : CallEnv) (l buf body : list byte)
    (Size Count c s : N) (d d' : HEST_DXE_DRIVER_DATA) :
  HestTable d = Live buf ->
  CurrentTableSize d = sizeof_HEST_TABLE_HEADER + s ->
  table_built pcd buf c s body ->
  AppendErrorSourceDescriptor pcd env (Some l) Size Count d
  = Some (EFI_SUCCESS, d') ->
  data_wire pcd d' (c + Count) (s + Size)
    (body ++ firstn (N.to_nat Size) l).
Proof.
  intros HT HS (HL & RS & RR & RP & RC & RB) A.
  rewrite <- HL in HS.
  destruct (Append_Live_reads _ _ _ _ _ _ _ _ HT HS
              ltac:(rewrite HL; unfold sizeof_HEST_TABLE_HEADER; lia) RC A)
    as (buf' & -> & L' & Old & New & RL & RC').
  unfold sizeof_HEST_TABLE_HEADER, offset_ErrorSourceCount, Read32, Read8
    in *.
  unfold data_wire, table_wire, table_built. cbn [HestTable CurrentTableSize].
  unfold sizeof_HEST_TABLE_HEADER, offset_ErrorSourceCount, Read32, Read8.
  split; [lia|]. split; [|rewrite RL; f_equal; lia].
  split; [lia|]. split; [rewrite Old by lia; exact RS|].
  split; [rewrite Old by lia; exact RR|].
  split; [rewrite Old by lia; exact RP|].
  split; [now rewrite RC', UINT32_add_l|].
  apply ReadMem_join.
  - rewrite Old by lia. exact RB.
  - rewrite <- HL. exact New.
Qed.

(** One successful call, table or no table yet. *)
Lemma Append_wire_step (env : CallEnv) (List : option (list byte))
    (body : list byte) (Size Count c s : N)
    (d d' : HEST_DXE_DRIVER_DATA) :
  data_wire pcd d c s body ->
  AppendErrorSourceDescriptor pcd env List Size Count d
  = Some (EFI_SUCCESS, d') ->
  data_wire pcd d' (c + Count) (s + Size)
    (body ++ match List with
             | Some l => firstn (N.to_nat Size) l
             | None => []
             end).
Proof.
  intros I A. pose proof (Append_Size_nonzero _ _ _ _ _ _ _ A) as Z.
  destruct List as [l|]; [|discriminate A].
  unfold data_wire in I.
  destruct (HestTable d) as [|buf|] eqn:HT; [|destruct I as (HS & B & _)|tauto].
  - destruct I as (-> & -> & ->).
    destruct (header_granted env) eqn:G.
    + destruct (BuildHestHeader_built pcd env d G) as (buf & B & T).
      apply (Append_wire_Live env l buf [] Size Count 0 0
               {| HestTable := Live buf;
                  CurrentTableSize := sizeof_HEST_TABLE_HEADER |});
        try reflexivity; try assumption.
      rewrite <- A. unfold AppendErrorSourceDescriptor.
      apply N.eqb_neq in Z. rewrite Z, HT, B. reflexivity.
    + exfalso. revert A. unfold AppendErrorSourceDescriptor.
      apply N.eqb_neq in Z. rewrite Z, HT.
      unfold BuildHestHeader, ReallocateHestTableMemory,
        ReallocateReservedPool.
      rewrite G. cbn. discriminate.
  - eapply Append_wire_Live; eauto.
Qed.

(** A run of successful calls. *)
Lemma appends_wire (calls : list AppendCall) (body : list byte)
    (c s : N) (d d' : HEST_DXE_DRIVER_DATA) :
  data_wire pcd d c s body ->
  successful_appends pcd calls d = Some d' ->
  data_wire pcd d' (c + sum_Count calls) (s + sum_Size calls)
    (body ++ appended_bytes calls).
Proof.
  revert d c s body.
  induction calls as [|k rest IH]; intros d c s body I S.
  - cbn in S. injection S as <-. cbn.
    now rewrite !N.add_0_r, app_nil_r.
  - cbn [successful_appends] in S.
    apply bind_Some in S as ([st d1] & A & S). cbn [fst snd] in S.
    destruct (st =? EFI_SUCCESS) eqn:E; [|discriminate].
    apply N.eqb_eq in E. subst st.
    pose proof (Append_wire_step _ _ _ _ _ _ _ _ _ I A) as I1.
    specialize (IH _ _ _ _ I1 S).
    cbn [sum_Count sum_Size fold_right appended_bytes flat_map].
    fold (appended_bytes rest).
    now rewrite !N.add_assoc, app_assoc.
Qed.

(** From the initial driver data, a run of at least one call that all
    succeed leaves a table. *)
Lemma appends_wire_initial (calls : list AppendCall)
    (d' : HEST_DXE_DRIVER_DATA) :
  successful_appends pcd calls mHestDriverData_initial = Some d' ->
  calls <> [] ->
  exists buf,
    HestTable d' = Live buf
    /\ CurrentTableSize d' = sizeof_HEST_TABLE_HEADER + sum_Size calls
    /\ table_wire pcd buf (sum_Count calls) (sum_Size calls)
         (appended_bytes calls).
Proof.
  intros S NE.
  pose proof (appends_wire calls [] 0 0 mHestDriverData_initial d'
                ltac:(cbn; auto) S) as W.
  pose proof (successful_appends_Size _ _ _ _ S NE) as Z.
  rewrite !N.add_0_l in W. cbn [app] in W.
  unfold data_wire in W. destruct (HestTable d') as [|buf|]; [lia| |tauto].
  exists buf. tauto.
Qed.

(** The descriptor bytes of the table are the bytes the calls handed
    over, one call after the other, and nothing else: after a run of at
    least one call that all return [EFI_SUCCESS], from the initial driver
    data, the table is the header followed by exactly these bytes. *)
Theorem table_body_is_appended (calls : list AppendCall)
    (d' : HEST_DXE_DRIVER_DATA) :
  successful_appends pcd calls mHestDriverData_initial = Some d' ->
  calls <> [] ->
  exists buf,
    HestTable d' = Live buf
    /\ len buf = sizeof_HEST_TABLE_HEADER + len (appended_bytes calls)
    /\ ReadMem buf sizeof_HEST_TABLE_HEADER (len (appended_bytes calls))
       = Some (appended_bytes calls).
Proof.
  intros S NE.
  destruct (appends_wire_initial calls d' S NE)
    as (buf & HT & _ & (L & _ & _ & _ & _ & B) & _).
  pose proof (ReadMem_len _ _ _ _ B) as E.
  exists buf. rewrite E. tauto.
Qed.

End AppendFacts.

(** ** HestDxe.c: installing the table *)

Section InstallFacts.
Import Base Mem HestDxe Wire.
Variable pcd : Pcd.

(** [InstallHestAcpiTable] on a table whose length field is its size:
    the checksum is stored over the byte at offset 9, the result is handed
    to [InstallAcpiTable] with the size, and the status of that call
    decides whether the table is kept or freed. *)
Lemma Install_shape (InstallAcpiTable : list byte -> N -> EFI_STATUS)
    (d : HEST_DXE_DRIVER_DATA) (buf : list byte) :
  HestTable d = Live buf ->
  Read32 buf offset_Length = Some (len buf) ->
  offset_Checksum + 1 <= len buf ->
  exists table,
    Write8 buf offset_Checksum (CalculateCheckSum8 buf) = Some table
    /\ InstallHestAcpiTable InstallAcpiTable d
       = Some
           {| install_status :=
                if EFI_ERROR (InstallAcpiTable table (len buf))
                then InstallAcpiTable table (len buf)
                else EFI_SUCCESS;
              install_data :=
                {| HestTable :=
                     if EFI_ERROR (InstallAcpiTable table (len buf))
                     then Live table
                     else Freed;
                   CurrentTableSize := CurrentTableSize d |};
              install_published := Some (table, len buf) |}.
Proof.
  intros HT HL B. unfold InstallHestAcpiTable. rewrite HT, HL.
  cbn [Mem.bind]. rewrite ReadMem_all. cbn [Mem.bind].
  destruct (CopyMem_fits buf (le_bytes 1 (CalculateCheckSum8 buf))
              offset_Checksum) as [table W];
    [now rewrite len_le_bytes|].
  exists table. split; [exact W|].
  unfold Write8. rewrite W. cbn [Mem.bind].
  assert (HL' : Read32 table offset_Length = Some (len buf)).
  { rewrite <- HL. unfold Read32.
    rewrite (ReadMem_CopyMem_before _ _ _ _ _ _ W); [reflexivity|].
    unfold offset_Length, offset_Checksum. lia. }
  rewrite HL'. cbn [Mem.bind].
  now destruct (EFI_ERROR _).
Qed.

(** The table handed to [InstallAcpiTable] after a run of at least one
    call of the append service that all succeeded, with its length: the
    signature, the revision and the fields taken from the PCDs as
    [BuildHestHeader] stored them, the length field equal to the size of
    the table and to the length handed over, the count of the calls
    modulo [2 ^ 32], and behind the header the appended bytes. *)
Theorem published_table_wire
    (InstallAcpiTable : list byte -> N -> EFI_STATUS)
    (calls : list AppendCall) (d' : HEST_DXE_DRIVER_DATA) :
  successful_appends pcd calls mHestDriverData_initial = Some d' ->
  calls <> [] ->
  exists r table,
    InstallHestAcpiTable InstallAcpiTable d' = Some r
    /\ install_published r
       = Some (table, sizeof_HEST_TABLE_HEADER + sum_Size calls)
    /\ table_wire pcd table (sum_Count calls) (sum_Size calls)
         (appended_bytes calls).
Proof.
  intros S NE.
  destruct (appends_wire_initial pcd calls d' S NE)
    as (buf & HT & _ & (L & RS & RR & RP & RC & RB) & RL).
  unfold sizeof_HEST_TABLE_HEADER, offset_Length, offset_ErrorSourceCount,
    Read32, Read8 in *.
  destruct (Install_shape InstallAcpiTable d' buf HT) as (table & W & I).
  { unfold Read32, offset_Length. rewrite RL. f_equal. lia. }
  { unfold offset_Checksum. lia. }
  eexists. exists table. split; [exact I|]. cbn [install_published].
  split; [now rewrite L|].
  unfold Write8, offset_Checksum in W.
  assert (Keep : forall off n,
             off + n <= 9 \/ 10 <= off ->
             ReadMem table off n = ReadMem buf off n).
  { intros off n [P | P].
    - now apply (ReadMem_CopyMem_before _ _ _ _ _ _ W).
    - apply (ReadMem_CopyMem_after _ _ _ _ _ _ W).
      rewrite len_le_bytes. lia. }
  unfold table_wire, table_built, sizeof_HEST_TABLE_HEADER, offset_Length,
    offset_ErrorSourceCount, Read32, Read8.
  rewrite !Keep by lia. rewrite (CopyMem_len _ _ _ _ W).
  tauto.
Qed.

(** When the pool refuses the header of the first table, the call of the
    append service returns [EFI_OUT_OF_RESOURCES] and the driver data is
    what it was. *)
Theorem Append_header_refused (env : CallEnv) (l : list byte)
    (Size Count : N) (d : HEST_DXE_DRIVER_DATA) :
  HestTable d = NULL -> Size <> 0 -> header_granted env = false ->
  AppendErrorSourceDescriptor pcd env (Some l) Size Count d
  = Some (EFI_OUT_OF_RESOURCES, d).
Proof.
  intros HT Z G. unfold AppendErrorSourceDescriptor.
  apply N.eqb_neq in Z. rewrite Z, HT.
  unfold BuildHestHeader, ReallocateHestTableMemory, ReallocateReservedPool.
  rewrite G. cbn [negb Mem.bind].
  change (EFI_OUT_OF_RESOURCES =? EFI_OUT_OF_RESOURCES) with true.
  cbv iota. destruct d as [p n]. cbn in HT. now subst p.
Qed.

(** [InstallHestAcpiTable] calls [InstallAcpiTable] exactly when the
    driver data points to a table: with no table it returns
    [EFI_SUCCESS], calls nothing and leaves the driver data alone. *)
Theorem Install_publishes_iff_table
    (InstallAcpiTable : list byte -> N -> EFI_STATUS)
    (d : HEST_DXE_DRIVER_DATA) (r : Installed) :
  InstallHestAcpiTable InstallAcpiTable d = Some r ->
  (install_published r = None <-> HestTable d = NULL)
  /\ (HestTable d = NULL ->
      install_status r = EFI_SUCCESS /\ install_data r = d).
Proof.
  unfold InstallHestAcpiTable.
  destruct (HestTable d) as [|buf|] eqn:HT.
  - intros [= <-]. cbn. tauto.
  - intros I.
    apply bind_Some in I as (n & _ & I).
    apply bind_Some in I as (summed & _ & I).
    apply bind_Some in I as (table & _ & I).
    apply bind_Some in I as (n' & _ & I).
    destruct (EFI_ERROR _); injection I as <-; cbn;
      (split; [split; discriminate|discriminate]).
  - discriminate.
Qed.

(** [InstallHestAcpiTable] changes one byte of the table, the checksum;
    it returns an error of [InstallAcpiTable] as it is and then keeps the
    table; otherwise it returns [EFI_SUCCESS] and frees the table. *)
Theorem Install_touches_checksum_only
    (InstallAcpiTable : list byte -> N -> EFI_STATUS)
    (d : HEST_DXE_DRIVER_DATA) (buf : list byte) :
  HestTable d = Live buf ->
  Read32 buf offset_Length = Some (len buf) ->
  offset_Checksum + 1 <= len buf ->
  exists r table,
    InstallHestAcpiTable InstallAcpiTable d = Some r
    /\ install_published r = Some (table, len buf)
    /\ len table = len buf
    /\ (forall off n,
          off + n <= offset_Checksum \/ offset_Checksum + 1 <= off ->
          ReadMem table off n = ReadMem buf off n)
    /\ install_status r
       = (if EFI_ERROR (InstallAcpiTable table (len buf))
          then InstallAcpiTable table (len buf)
          else EFI_SUCCESS)
    /\ HestTable (install_data r)
       = (if EFI_ERROR (InstallAcpiTable table (len buf))
          then Live table
          else Freed).
Proof.
  intros HT HL B.
  destruct (Install_shape InstallAcpiTable d buf HT HL B)
    as (table & W & I).
  eexists. exists table. split; [exact I|]. cbn.
  split; [reflexivity|]. unfold Write8 in W.
  split; [exact (CopyMem_len _ _ _ _ W)|].
  split; [|split; reflexivity].
  intros off n [P | P].
  - now apply (ReadMem_CopyMem_before _ _ _ _ _ _ W).
  - apply (ReadMem_CopyMem_after _ _ _ _ _ _ W).
    now rewrite len_le_bytes.
Qed.

(** After an installation that succeeded the driver data still holds
    the pointer it freed: another installation, and another call of the
    append service that the pool serves, read freed memory. *)
Theorem Install_leaves_freed_pointer
    (InstallAcpiTable : list byte -> N -> EFI_STATUS)
    (d : HEST_DXE_DRIVER_DATA) (r : Installed) :
  InstallHestAcpiTable InstallAcpiTable d = Some r ->
  install_published r <> None ->
  EFI_ERROR (install_status r) = false ->
  HestTable (install_data r) = Freed
  /\ (forall Again, InstallHestAcpiTable Again (install_data r) = None)
  /\ (forall env l Size Count,
        Size <> 0 -> growth_granted env = true ->
        AppendErrorSourceDescriptor pcd env (Some l) Size Count
          (install_data r) = None).
Proof.
  intros I P E.
  assert (F : HestTable (install_data r) = Freed).
  { revert I. unfold InstallHestAcpiTable.
    destruct (HestTable d) as [|buf|] eqn:HT.
    - intros [= <-]. now cbn in P.
    - intros I.
      apply bind_Some in I as (n & _ & I).
      apply bind_Some in I as (summed & _ & I).
      apply bind_Some in I as (table & _ & I).
      apply bind_Some in I as (n' & _ & I).
      destruct (EFI_ERROR (InstallAcpiTable table n')) eqn:X;
        injection I as <-; cbn in *; [congruence|reflexivity].
    - discriminate. }
  split; [exact F|]. split.
  - intros Again. unfold InstallHestAcpiTable. now rewrite F.
  - intros env l Size Count Z G. unfold AppendErrorSourceDescriptor.
    apply N.eqb_neq in Z. rewrite Z, F. cbn [Mem.bind].
    change (EFI_SUCCESS =? EFI_OUT_OF_RESOURCES) with false. cbv iota.
    unfold ReallocateHestTableMemory, ReallocateReservedPool.
    now rewrite G, F.
Qed.

End InstallFacts.

(** ** HestErrorSourceStandaloneMm.c: the ways out of the handler *)

Section HandlerFacts.
Import Base Mem StandaloneMm Wire.

(** The three early ways out: a buffer below the two fields, no handle
    registered, no memory for the handle buffer.  Each returns its own
    status and leaves the communication buffer as it was, the two fields
    included. *)
Theorem handler_early_exits (db : list Handle) (granted : bool)
    (CommBuffer : HEST_ERROR_SOURCE_DESC_INFO) (CommBufferSize : N) :
  CommBufferSize < HEST_ERROR_SOURCE_DESC_INFO_SIZE
  \/ db = [] \/ granted = false ->
  HestErrorSourcesInfoMmiHandler db granted CommBuffer CommBufferSize
  = Some (if CommBufferSize <? HEST_ERROR_SOURCE_DESC_INFO_SIZE
          then EFI_INVALID_PARAMETER
          else match db with
               | [] => EFI_NOT_FOUND
               | _ => EFI_OUT_OF_RESOURCES
               end,
          CommBuffer).
Proof.
  intros H. unfold HestErrorSourcesInfoMmiHandler.
  destruct (CommBufferSize <? HEST_ERROR_SOURCE_DESC_INFO_SIZE) eqn:C;
    [reflexivity|].
  apply N.ltb_ge in C.
  destruct db as [|h rest]; [reflexivity|].
  destruct H as [H | [H | H]]; [lia|discriminate|subst granted].
  rewrite GetHandles_first by discriminate.
  change (EFI_BUFFER_TOO_SMALL =? EFI_NOT_FOUND) with false.
  destruct (N.of_nat (length (h :: rest)) * sizeof_EFI_HANDLE =? 0) eqn:Z;
    [|reflexivity].
  apply N.eqb_eq in Z. unfold sizeof_EFI_HANDLE in Z. cbn [length] in Z. lia.
Qed.




(** Handles that follow the protocol are counted by the first loop. *)
Lemma follows_declared (db : list Handle) (specs : list (N * list byte)) :
  Forall2 follows_protocol db specs ->
  declared_Length db = len (spec_bytes specs)
  /\ declared_Count db = spec_count specs.
Proof.
  induction 1 as [|h spec db specs (E & S & L & K & _) _ [IHL IHK]].
  - split; reflexivity.
  - assert (P : answers_probe h = true)
      by (unfold answers_probe; now rewrite E, S, N.eqb_refl).
    unfold declared_Length, declared_Count in *. cbn [filter].
    rewrite P. cbn [fold_right]. rewrite IHL, IHK, L, K.
    unfold spec_bytes, spec_count. cbn [flat_map fold_right].
    now rewrite len_app.
Qed.

(** The second loop over handles that follow the protocol, with room
    from the cursor on: every handle stores its bytes, one behind the
    other. *)
Lemma fill_pass_follows (db : list Handle) (specs : list (N * list byte))
    (s : FillState) :
  Forall2 follows_protocol db specs ->
  ErrorSourcePtr s + len (spec_bytes specs) <= len (DescList s) ->
  exists s',
    fill_pass db s = Some s'
    /\ ReadMem (DescList s') (ErrorSourcePtr s) (len (spec_bytes specs))
       = Some (spec_bytes specs)
    /\ (db <> [] -> fill_Status s' = EFI_SUCCESS).
Proof.
  intros F. revert s.
  induction F as [|h spec db specs (E & _ & _ & _ & A) F' IH]; intros s B.
  - exists s. split; [reflexivity|]. split; [reflexivity|congruence].
  - unfold spec_bytes in *. cbn [flat_map] in *. rewrite len_app in *.
    fold (spec_bytes specs) in *.
    destruct (A (ErrorSourcePtr s)) as (AS & AL & AW).
    destruct (CopyMem_fits (DescList s) (snd spec) (ErrorSourcePtr s))
      as [list C]; [lia|].
    assert (St : fill_step s h
                 = Some {| fill_Status := EFI_SUCCESS;
                           ErrorSourcePtr :=
                             ErrorSourcePtr s + len (snd spec);
                           DescList := list |}).
    { unfold fill_step. rewrite E.
      fold (fill_reply h (ErrorSourcePtr s)). rewrite AW, C.
      cbn [Mem.bind]. now rewrite AS, AL. }
    destruct (IH {| fill_Status := EFI_SUCCESS;
                    ErrorSourcePtr := ErrorSourcePtr s + len (snd spec);
                    DescList := list |}) as (s' & P & R & S').
    { cbn [ErrorSourcePtr DescList]. rewrite (CopyMem_len _ _ _ _ C). lia. }
    cbn [ErrorSourcePtr DescList] in R.
    exists s'. cbn [fill_pass]. rewrite St. cbn [Mem.bind].
    split; [exact P|]. split.
    + apply ReadMem_join; [|exact R].
      destruct (fill_pass_cursor _ _ _ P) as (_ & _ & K).
      cbn [ErrorSourcePtr DescList] in K. rewrite K by lia.
      exact (ReadMem_CopyMem_same _ _ _ _ C).
    + intros _. destruct db as [|h' db'].
      * inversion F'; subst. now injection P as <-.
      * apply S'. discriminate.
Qed.

(** With handles that all follow the protocol and a buffer that has room
    for the two fields and all their bytes, the handler returns
    [EFI_SUCCESS] and the reply holds the sum of the counts, the number of
    the bytes, and the bytes of the handles one behind the other from the
    start of the descriptor list. *)
Theorem handler_collects_all (db : list Handle)
    (specs : list (N * list byte))
    (CommBuffer : HEST_ERROR_SOURCE_DESC_INFO) (CommBufferSize : N) :
  Forall2 follows_protocol db specs -> db <> [] ->
  HEST_ERROR_SOURCE_DESC_INFO_SIZE + len (spec_bytes specs)
  <= CommBufferSize ->
  CommBufferSize < 2 ^ 64 ->
  len (spec_bytes specs) <= len (ErrSourceDescList CommBuffer) ->
  exists out,
    HestErrorSourcesInfoMmiHandler db true CommBuffer CommBufferSize
    = Some (EFI_SUCCESS, out)
    /\ ErrSourceDescCount out = UINTN (spec_count specs)
    /\ ErrSourceDescSize out = len (spec_bytes specs)
    /\ ReadMem (ErrSourceDescList out) 0 (len (spec_bytes specs))
       = Some (spec_bytes specs).
Proof.
  intros F NE Cap Top Room.
  unfold HEST_ERROR_SOURCE_DESC_INFO_SIZE in Cap.
  destruct (follows_declared db specs F) as [DL DC].
  rewrite handler_two_loops
    by (assumption || unfold HEST_ERROR_SOURCE_DESC_INFO_SIZE; lia).
  rewrite DL, DC. unfold HEST_ERROR_SOURCE_DESC_INFO_SIZE.
  rewrite (UINTN_small (len (spec_bytes specs))) by lia.
  rewrite (UINTN_small (len (spec_bytes specs) + 16)) by lia.
  destruct (CommBufferSize <? len (spec_bytes specs) + 16) eqn:C;
    [apply N.ltb_lt in C; lia|].
  match goal with |- context [fill_pass db ?s0] =>
    destruct (fill_pass_follows db specs s0 F) as (s' & P & R & S)
  end.
  { cbn [ErrorSourcePtr DescList]. lia. }
  cbn [ErrorSourcePtr] in R. rewrite P. cbn [Mem.bind].
  rewrite (S NE). eexists. split; [reflexivity|]. cbn.
  split; [reflexivity|]. split; [reflexivity|exact R].
Qed.

(** The size a first call reports is the size a second call needs: a
    buffer of the two fields and [ErrSourceDescSize] bytes of the first
    reply is never answered by the check of the buffer size, so with
    handles that do not answer [EFI_BUFFER_TOO_SMALL] themselves the
    second call does not return it. *)
Theorem sized_retry_is_large_enough (db : list Handle)
    (First Second out1 out2 : HEST_ERROR_SOURCE_DESC_INFO)
    (FirstSize : N) (Status1 Status2 : EFI_STATUS) :
  db <> [] -> HEST_ERROR_SOURCE_DESC_INFO_SIZE <= FirstSize ->
  Forall never_too_small db ->
  HestErrorSourcesInfoMmiHandler db true First FirstSize
  = Some (Status1, out1) ->
  HEST_ERROR_SOURCE_DESC_INFO_SIZE + ErrSourceDescSize out1 < 2 ^ 64 ->
  HestErrorSourcesInfoMmiHandler db true Second
    (HEST_ERROR_SOURCE_DESC_INFO_SIZE + ErrSourceDescSize out1)
  = Some (Status2, out2) ->
  Status2 <> EFI_BUFFER_TOO_SMALL.
Proof.
  intros NE Cap A H1 Top H2.
  assert (E : ErrSourceDescSize out1 = UINTN (declared_Length db)).
  { rewrite handler_two_loops in H1 by assumption.
    destruct (FirstSize <? _).
    - now injection H1 as _ <-.
    - apply bind_Some in H1 as (filled & _ & H1). now injection H1 as _ <-. }
  rewrite E in *. unfold HEST_ERROR_SOURCE_DESC_INFO_SIZE in *.
  rewrite handler_two_loops in H2
    by (assumption || unfold HEST_ERROR_SOURCE_DESC_INFO_SIZE; lia).
  unfold HEST_ERROR_SOURCE_DESC_INFO_SIZE in H2.
  rewrite (UINTN_small (UINTN (declared_Length db) + 16)) in H2 by lia.
  destruct (16 + UINTN (declared_Length db)
            <? UINTN (declared_Length db) + 16) eqn:C;
    [apply N.ltb_lt in C; lia|].
  apply bind_Some in H2 as (filled & F & H2). injection H2 as <- _.
  apply (fill_pass_Status _ _ _ F A). congruence.
Qed.

End HandlerFacts.

(** ** HestErrorSourceDxe.c: the ways out of [AppendMmErrorSources] *)

Section ClientWays.
Import Base Mem StandaloneMm ErrorSourceDxe EntryPoints Wire.

(** The append service is reached only along one path: both buffers
    allocated, a first call that is no failure other than
    [EFI_BAD_BUFFER_SIZE] and declares a count and a size that are not
    zero, and a second call that is no failure; the list, the size and
    the count handed over are those of the second reply. *)
Theorem append_only_after_two_calls (svc : Services)
    (List : option (list byte)) (Size Count : N) :
  AppendMmErrorSources_steps svc = Some (ReturnAppend List Size Count) ->
  exists Status1 Info1 Status2 Info2,
    AllocatePool_first svc first_size <> 0
    /\ GetErrorSourceDescriptors (Communicate_first svc) first_size
       = Some (Status1, Info1)
    /\ (EFI_ERROR Status1 = false \/ Status1 = EFI_BAD_BUFFER_SIZE)
    /\ ErrSourceDescSize Info1 <> 0 /\ ErrSourceDescCount Info1 <> 0
    /\ AllocatePool_second svc (second_size Info1) <> 0
    /\ GetErrorSourceDescriptors (Communicate_second svc)
         (second_size Info1) = Some (Status2, Info2)
    /\ EFI_ERROR Status2 = false
    /\ List = Some (ErrSourceDescList Info2)
    /\ Size = ErrSourceDescSize Info2
    /\ Count = ErrSourceDescCount Info2.
Proof.
  unfold AppendMmErrorSources_steps. fold first_size.
  destruct (AllocatePool_first svc first_size =? 0) eqn:A1; [discriminate|].
  intros H. apply bind_Some in H as ([Status1 Info1] & C1 & H).
  destruct (EFI_ERROR Status1 && negb (Status1 =? EFI_BAD_BUFFER_SIZE))
    eqn:T; [discriminate|].
  destruct ((ErrSourceDescSize Info1 =? 0)
            || (ErrSourceDescCount Info1 =? 0)) eqn:Z; [discriminate|].
  fold (second_size Info1) in H.
  destruct (AllocatePool_second svc (second_size Info1) =? 0) eqn:A2;
    [discriminate|].
  apply bind_Some in H as ([Status2 Info2] & C2 & H).
  destruct (EFI_ERROR Status2) eqn:E2; [discriminate|].
  destruct (ErrSourceDescList_address _ =? 0); [discriminate|].
  injection H as <- <- <-.
  apply N.eqb_neq in A1, A2. apply orb_false_elim in Z as [Z1 Z2].
  apply N.eqb_neq in Z1, Z2.
  exists Status1, Info1, Status2, Info2.
  repeat (split; [assumption || reflexivity|]).
  split.
  - apply andb_false_elim in T as [T | T]; [now left|right].
    apply negb_false_iff in T. now apply N.eqb_eq.
  - repeat (split; [assumption || reflexivity|]). reflexivity.
Qed.

(** A first reply that declares no descriptor or no byte, from a call
    that is no failure other than [EFI_BAD_BUFFER_SIZE]: the function
    returns [EFI_SUCCESS], makes no second call and leaves the table
    driver's data alone. *)
Theorem nothing_declared_is_success (pcd : HestDxe.Pcd)
    (env : HestDxe.CallEnv) (svc : Services)
    (d : HestDxe.HEST_DXE_DRIVER_DATA) (Status1 : EFI_STATUS)
    (Info1 : HEST_ERROR_SOURCE_DESC_INFO) :
  AllocatePool_first svc first_size <> 0 ->
  GetErrorSourceDescriptors (Communicate_first svc) first_size
  = Some (Status1, Info1) ->
  EFI_ERROR Status1 = false \/ Status1 = EFI_BAD_BUFFER_SIZE ->
  ErrSourceDescSize Info1 = 0 \/ ErrSourceDescCount Info1 = 0 ->
  AppendMmErrorSources pcd env svc d = Some (EFI_SUCCESS, d).
Proof.
  intros A1 C1 T Z. unfold AppendMmErrorSources, AppendMmErrorSources_steps.
  fold first_size. apply N.eqb_neq in A1. rewrite A1, C1. cbn [Mem.bind].
  assert (T' : EFI_ERROR Status1 && negb (Status1 =? EFI_BAD_BUFFER_SIZE)
               = false).
  { destruct T as [-> | ->]; [reflexivity|].
    now rewrite N.eqb_refl, andb_false_r. }
  rewrite T'.
  assert (Z' : (ErrSourceDescSize Info1 =? 0)
               || (ErrSourceDescCount Info1 =? 0) = true).
  { destruct Z as [-> | ->]; [reflexivity|apply orb_true_r]. }
  now rewrite Z'.
Qed.

(** Every error [AppendMmErrorSources] returns before it reaches the
    append service is [EFI_OUT_OF_RESOURCES] or the status of one of its
    two calls into MM, and of the first call never
    [EFI_BAD_BUFFER_SIZE]. *)
Theorem errors_come_from_the_calls (svc : Services) (Status : EFI_STATUS) :
  AppendMmErrorSources_steps svc = Some (Return Status) ->
  EFI_ERROR Status = true ->
  Status = EFI_OUT_OF_RESOURCES
  \/ (exists Info,
        GetErrorSourceDescriptors (Communicate_first svc) first_size
        = Some (Status, Info)
        /\ Status <> EFI_BAD_BUFFER_SIZE)
  \/ (exists Status1 Info1 Info,
        GetErrorSourceDescriptors (Communicate_first svc) first_size
        = Some (Status1, Info1)
        /\ GetErrorSourceDescriptors (Communicate_second svc)
             (second_size Info1) = Some (Status, Info)).
Proof.
  unfold AppendMmErrorSources_steps. fold first_size.
  destruct (AllocatePool_first svc first_size =? 0); [intros [= <-]; tauto|].
  intros H E. apply bind_Some in H as ([Status1 Info1] & C1 & H).
  destruct (EFI_ERROR Status1 && negb (Status1 =? EFI_BAD_BUFFER_SIZE))
    eqn:T.
  { injection H as <-. right. left. exists Info1. split; [exact C1|].
    apply andb_prop in T as [_ T]. apply negb_true_iff in T.
    now apply N.eqb_neq. }
  destruct ((ErrSourceDescSize Info1 =? 0)
            || (ErrSourceDescCount Info1 =? 0)).
  { injection H as <-. discriminate E. }
  fold (second_size Info1) in H.
  destruct (AllocatePool_second svc (second_size Info1) =? 0);
    [injection H as <-; tauto|].
  apply bind_Some in H as ([Status2 Info2] & C2 & H).
  destruct (EFI_ERROR Status2).
  { injection H as <-. right. right. now exists Status1, Info1, Info2. }
  destruct (ErrSourceDescList_address _ =? 0); [|discriminate].
  injection H as <-. discriminate E.
Qed.

(** The entry point of the driver returns no error but those of
    [LocateProtocol], and then leaves the table driver's data alone: what
    [AppendMmErrorSources] returns never reaches the caller. *)
Theorem entry_returns_only_locate_errors
    (LocateHestTable_Status LocateMmCommunication2_Status : EFI_STATUS)
    (pcd : HestDxe.Pcd) (env : HestDxe.CallEnv) (svc : Services)
    (d d' : HestDxe.HEST_DXE_DRIVER_DATA) (Status : EFI_STATUS) :
  HestErrorSourceInitialize LocateHestTable_Status
    LocateMmCommunication2_Status pcd env svc d = Some (Status, d') ->
  (Status = EFI_SUCCESS
   /\ exists Dropped,
        AppendMmErrorSources pcd env svc d = Some (Dropped, d'))
  \/ (EFI_ERROR Status = true /\ d' = d
      /\ (Status = LocateHestTable_Status
          \/ Status = LocateMmCommunication2_Status)).
Proof.
  unfold HestErrorSourceInitialize.
  destruct (EFI_ERROR LocateHestTable_Status) eqn:E1.
  { intros [= <- <-]. right. tauto. }
  destruct (EFI_ERROR LocateMmCommunication2_Status) eqn:E2.
  { intros [= <- <-]. right. tauto. }
  intros H. apply bind_Some in H as ([Dropped dA] & A & H).
  injection H as <- <-. left. split; [reflexivity|]. now exists Dropped.
Qed.

Lemma EFI_ERROR_not_SUCCESS (Status : EFI_STATUS) :
  EFI_ERROR Status = true -> Status <> EFI_SUCCESS.
Proof. intros E ->. discriminate E. Qed.

(** [HestInitialize] of HestDxe.c returns [EFI_SUCCESS] exactly when
    neither boot service reports an error, and it offers the HEST table
    protocol only once the ACPI table protocol is found. *)
Theorem HestInitialize_status
    (LocateProtocol_Status InstallProtocolInterface_Status : EFI_STATUS) :
  (init_Status (HestInitialize LocateProtocol_Status
                  InstallProtocolInterface_Status) = EFI_SUCCESS
   <-> EFI_ERROR LocateProtocol_Status = false
       /\ EFI_ERROR InstallProtocolInterface_Status = false)
  /\ (init_InstallCalled (HestInitialize LocateProtocol_Status
                            InstallProtocolInterface_Status) = true
      <-> EFI_ERROR LocateProtocol_Status = false).
Proof.
  unfold HestInitialize.
  destruct (EFI_ERROR LocateProtocol_Status) eqn:E1.
  - cbn. pose proof (EFI_ERROR_not_SUCCESS _ E1).
    split; split; try tauto; try discriminate. intros [X _]. discriminate.
  - destruct (EFI_ERROR InstallProtocolInterface_Status) eqn:E2; cbn.
    + pose proof (EFI_ERROR_not_SUCCESS _ E2).
      split; split; try tauto. intros [_ X]. discriminate.
    + split; split; tauto.
Qed.

End ClientWays.

(** ** The further properties on concrete runs *)

Section TableRuns.
Import Base Mem HestDxe Wire.

(** The run [Scenario.two_calls]: seven bytes behind the header, in the
    order of the calls. *)
Lemma table_body_is_appended_witness :
  exists d' buf,
    successful_appends Scenario.pcd Scenario.two_calls
      mHestDriverData_initial = Some d'
    /\ HestTable d' = Live buf
    /\ len buf = 40 + 7
    /\ ReadMem buf 40 7 = Some [x01; x02; x03; x04; x05; x06; x07].
Proof.
  destruct (successful_appends Scenario.pcd Scenario.two_calls
              mHestDriverData_initial) as [d'|] eqn:S;
    [|vm_compute in S; discriminate S].
  destruct (table_body_is_appended Scenario.pcd Scenario.two_calls d' S)
    as (buf & HT & L & B); [discriminate|].
  exists d', buf. split; [reflexivity|]. split; [exact HT|].
  split; [exact L|exact B].
Defined.

(** The same run, installed: a table of 47 bytes with the signature
    ["HEST"], five error sources and the seven bytes. *)
Lemma published_table_wire_witness :
  exists d' r table,
    successful_appends Scenario.pcd Scenario.two_calls
      mHestDriverData_initial = Some d'
    /\ InstallHestAcpiTable (fun _ _ => EFI_SUCCESS) d' = Some r
    /\ install_published r = Some (table, 47)
    /\ table_wire Scenario.pcd table 5 7
         [x01; x02; x03; x04; x05; x06; x07].
Proof.
  destruct (successful_appends Scenario.pcd Scenario.two_calls
              mHestDriverData_initial) as [d'|] eqn:S;
    [|vm_compute in S; discriminate S].
  destruct (published_table_wire Scenario.pcd (fun _ _ => EFI_SUCCESS)
              Scenario.two_calls d' S) as (r & table & I & P & W);
    [discriminate|].
  exists d', r, table. split; [reflexivity|]. split; [exact I|].
  split; [exact P|exact W].
Defined.

(** No memory for the first header: the initial driver data stays. *)
Lemma Append_header_refused_witness :
  AppendErrorSourceDescriptor Scenario.pcd MoreScenario.no_header
    (Some [x01]) 1 1 mHestDriverData_initial
  = Some (EFI_OUT_OF_RESOURCES, mHestDriverData_initial).
Proof.
  apply (Append_header_refused Scenario.pcd MoreScenario.no_header [x01]
           1 1 mHestDriverData_initial).
  - reflexivity.
  - discriminate.
  - reflexivity.
Defined.

(** With the initial driver data nothing is published. *)
Lemma Install_publishes_iff_table_witness :
  exists r,
    InstallHestAcpiTable (fun _ _ => EFI_DEVICE_ERROR)
      mHestDriverData_initial = Some r
    /\ (install_published r = None
        <-> HestTable mHestDriverData_initial = NULL)
    /\ (HestTable mHestDriverData_initial = NULL ->
        install_status r = EFI_SUCCESS
        /\ install_data r = mHestDriverData_initial).
Proof.
  exists {| install_status := EFI_SUCCESS;
            install_data := mHestDriverData_initial;
            install_published := None |}.
  split; [reflexivity|].
  apply (Install_publishes_iff_table (fun _ _ => EFI_DEVICE_ERROR)
           mHestDriverData_initial).
  reflexivity.
Defined.

(** The table of 41 bytes, refused by the ACPI table protocol: the
    status comes back and the table stays. *)
Lemma Install_touches_checksum_only_witness :
  exists buf r table,
    HestTable Scenario.one_byte_table = Live buf
    /\ InstallHestAcpiTable (fun _ _ => EFI_DEVICE_ERROR)
         Scenario.one_byte_table = Some r
    /\ len table = 41
    /\ ReadMem table 0 9 = ReadMem buf 0 9
    /\ ReadMem table 10 31 = ReadMem buf 10 31
    /\ install_status r = EFI_DEVICE_ERROR
    /\ HestTable (install_data r) = Live table.
Proof.
  eexists.
  assert (HT : HestTable Scenario.one_byte_table = Live _)
    by (vm_compute; reflexivity).
  destruct (Install_touches_checksum_only (fun _ _ => EFI_DEVICE_ERROR)
              Scenario.one_byte_table _ HT)
    as (r & table & I & P & L & K & S & D).
  - reflexivity.
  - discriminate.
  - exists r, table. split; [exact HT|]. split; [exact I|].
    split; [exact L|]. split; [apply K; left; discriminate|].
    split; [apply K; right; discriminate|]. split; [exact S|exact D].
Defined.

(** The table of 41 bytes, installed: the driver data holds a freed
    pointer. *)
Lemma Install_leaves_freed_pointer_witness :
  exists r,
    InstallHestAcpiTable (fun _ _ => EFI_SUCCESS) Scenario.one_byte_table
    = Some r
    /\ HestTable (install_data r) = Freed
    /\ InstallHestAcpiTable (fun _ _ => EFI_SUCCESS) (install_data r)
       = None
    /\ AppendErrorSourceDescriptor Scenario.pcd Scenario.plentiful
         (Some [x02]) 1 1 (install_data r) = None.
Proof.
  destruct (InstallHestAcpiTable (fun _ _ => EFI_SUCCESS)
              Scenario.one_byte_table) as [r|] eqn:I;
    [|vm_compute in I; discriminate I].
  destruct (Install_leaves_freed_pointer Scenario.pcd
              (fun _ _ => EFI_SUCCESS) Scenario.one_byte_table r I)
    as (F & A & B).
  - vm_compute in I. injection I as <-. discriminate.
  - vm_compute in I. injection I as <-. reflexivity.
  - exists r. split; [reflexivity|]. split; [exact F|].
    split; [apply A|]. apply B; [discriminate|reflexivity].
Defined.

End TableRuns.

Section HandlerRuns.
Import Base Mem StandaloneMm ErrorSourceDxe EntryPoints Wire MmScenario.

(** A buffer of 8 bytes; no handle; no memory for the handle buffer. *)
Lemma handler_early_exits_witness :
  HestErrorSourcesInfoMmiHandler three true (fresh 8) 8
  = Some (EFI_INVALID_PARAMETER, fresh 8)
  /\ HestErrorSourcesInfoMmiHandler [] true (fresh 64) 64
     = Some (EFI_NOT_FOUND, fresh 64)
  /\ HestErrorSourcesInfoMmiHandler three false (fresh 64) 64
     = Some (EFI_OUT_OF_RESOURCES, fresh 64).
Proof.
  split; [|split].
  - apply (handler_early_exits three true (fresh 8) 8). left. reflexivity.
  - apply (handler_early_exits [] true (fresh 64) 64).
    right. left. reflexivity.
  - apply (handler_early_exits three false (fresh 64) 64).
    right. right. reflexivity.
Defined.


Lemma three_follow_protocol :
  Forall2 follows_protocol three MoreScenario.three_specs.
Proof.
  repeat constructor; intros cursor; repeat split.
Qed.

(** The three drivers and a buffer of 64 bytes: three descriptors, 48
    bytes, the 16 bytes of the first followed by the 32 of the second. *)
Lemma handler_collects_all_witness :
  exists out,
    HestErrorSourcesInfoMmiHandler three true (fresh 64) 64
    = Some (EFI_SUCCESS, out)
    /\ ErrSourceDescCount out = 3
    /\ ErrSourceDescSize out = 48
    /\ ReadMem (ErrSourceDescList out) 0 48
       = Some (repeat x11 16 ++ repeat x22 32).
Proof.
  apply (handler_collects_all three MoreScenario.three_specs (fresh 64) 64).
  - exact three_follow_protocol.
  - discriminate.
  - discriminate.
  - reflexivity.
  - discriminate.
Defined.

(** 96 bytes declared to a first call with a buffer of 16 bytes: the
    second call with 16 + 96 bytes succeeds. *)
Lemma sized_retry_is_large_enough_witness :
  exists out2,
    HestErrorSourcesInfoMmiHandler ninety_six true (fresh 16) 16
    = Some (EFI_BUFFER_TOO_SMALL,
            {| ErrSourceDescCount := 3; ErrSourceDescSize := 96;
               ErrSourceDescList := [] |})
    /\ HestErrorSourcesInfoMmiHandler ninety_six true (fresh 112) (16 + 96)
       = Some (EFI_SUCCESS, out2)
    /\ EFI_SUCCESS <> EFI_BUFFER_TOO_SMALL.
Proof.
  destruct (HestErrorSourcesInfoMmiHandler ninety_six true (fresh 112)
              (16 + 96)) as [[Status2 out2]|] eqn:H;
    [|vm_compute in H; discriminate H].
  assert (E : Status2 = EFI_SUCCESS)
    by (vm_compute in H; now injection H as <- _).
  subst Status2. exists out2. split; [reflexivity|]. split; [reflexivity|].
  apply (sized_retry_is_large_enough ninety_six (fresh 16) (fresh 112)
           {| ErrSourceDescCount := 3; ErrSourceDescSize := 96;
              ErrSourceDescList := [] |} out2 16 EFI_BUFFER_TOO_SMALL
           EFI_SUCCESS).
  - discriminate.
  - discriminate.
  - exact ninety_six_never_too_small.
  - reflexivity.
  - reflexivity.
  - exact H.
Defined.

(** Over the relabelling channel the three drivers reach the append
    service, along the one path. *)
Lemma append_only_after_two_calls_witness :
  exists Status1 Info1 Status2 Info2,
    AllocatePool_first (MoreScenario.relabelling three) first_size <> 0
    /\ GetErrorSourceDescriptors
         (Communicate_first (MoreScenario.relabelling three)) first_size
       = Some (Status1, Info1)
    /\ (EFI_ERROR Status1 = false \/ Status1 = EFI_BAD_BUFFER_SIZE)
    /\ ErrSourceDescSize Info1 <> 0 /\ ErrSourceDescCount Info1 <> 0
    /\ AllocatePool_second (MoreScenario.relabelling three)
         (second_size Info1) <> 0
    /\ GetErrorSourceDescriptors
         (Communicate_second (MoreScenario.relabelling three))
         (second_size Info1) = Some (Status2, Info2)
    /\ EFI_ERROR Status2 = false
    /\ Some (repeat x11 16 ++ repeat x22 32)
       = Some (ErrSourceDescList Info2)
    /\ 48 = ErrSourceDescSize Info2
    /\ 3 = ErrSourceDescCount Info2.
Proof.
  apply (append_only_after_two_calls (MoreScenario.relabelling three)
           (Some (repeat x11 16 ++ repeat x22 32)) 48 3).
  reflexivity.
Defined.

(** A driver with nothing to declare: success, and the table of 41 bytes
    is left alone. *)
Lemma nothing_declared_is_success_witness :
  AppendMmErrorSources Scenario.pcd Scenario.plentiful
    (services MoreScenario.idle) Scenario.one_byte_table
  = Some (EFI_SUCCESS, Scenario.one_byte_table).
Proof.
  apply (nothing_declared_is_success Scenario.pcd Scenario.plentiful
           (services MoreScenario.idle) Scenario.one_byte_table
           EFI_SUCCESS
           {| ErrSourceDescCount := 0; ErrSourceDescSize := 0;
              ErrSourceDescList := [] |}).
  - discriminate.
  - reflexivity.
  - left. reflexivity.
  - left. reflexivity.
Defined.

(** Over the channel that hands the handler's status over, the error of
    the three drivers' first call is the status of that call. *)
Lemma errors_come_from_the_calls_witness :
  EFI_BUFFER_TOO_SMALL = EFI_OUT_OF_RESOURCES
  \/ (exists Info,
        GetErrorSourceDescriptors (Communicate_first (services three))
          first_size = Some (EFI_BUFFER_TOO_SMALL, Info)
        /\ EFI_BUFFER_TOO_SMALL <> EFI_BAD_BUFFER_SIZE)
  \/ (exists Status1 Info1 Info,
        GetErrorSourceDescriptors (Communicate_first (services three))
          first_size = Some (Status1, Info1)
        /\ GetErrorSourceDescriptors (Communicate_second (services three))
             (second_size Info1) = Some (EFI_BUFFER_TOO_SMALL, Info)).
Proof.
  apply (errors_come_from_the_calls (services three) EFI_BUFFER_TOO_SMALL).
  - reflexivity.
  - reflexivity.
Defined.

(** Both protocols found, the collection fails: the entry point returns
    [EFI_SUCCESS]. *)
Lemma entry_returns_only_locate_errors_witness :
  HestErrorSourceInitialize EFI_SUCCESS EFI_SUCCESS Scenario.pcd
    Scenario.plentiful (services three) HestDxe.mHestDriverData_initial
  = Some (EFI_SUCCESS, HestDxe.mHestDriverData_initial)
  /\ ((EFI_SUCCESS = EFI_SUCCESS
       /\ exists Dropped,
            AppendMmErrorSources Scenario.pcd Scenario.plentiful
              (services three) HestDxe.mHestDriverData_initial
            = Some (Dropped, HestDxe.mHestDriverData_initial))
      \/ (EFI_ERROR EFI_SUCCESS = true
          /\ HestDxe.mHestDriverData_initial
             = HestDxe.mHestDriverData_initial
          /\ (EFI_SUCCESS = EFI_SUCCESS \/ EFI_SUCCESS = EFI_SUCCESS))).
Proof.
  split; [reflexivity|].
  apply (entry_returns_only_locate_errors EFI_SUCCESS EFI_SUCCESS
           Scenario.pcd Scenario.plentiful (services three)
           HestDxe.mHestDriverData_initial
           HestDxe.mHestDriverData_initial EFI_SUCCESS).
  reflexivity.
Defined.

End HandlerRuns.
